(** * Rink Announcer control panel: schedule cache, serialization and
      upcoming-announcements projection ([static/main.js])

    A shallow embedding of the schedule editor, the custom-type cache, the
    refresh and mutation flows and [updateUpcomingAnnouncements], together
    with the host operations they call (string methods, [Number], [Date],
    [Map], [Array.prototype.sort]).

    Conventions of the embedding.
    - A JavaScript string is a [string]: a sequence of code units below 256
      (the Latin-1 part of UTF-16).  White space is the part of the
      ECMAScript [WhiteSpace] and [LineTerminator] sets in that range.
    - A Number is [NaN], an infinity or an exact decimal; see [number].
    - A time value is an integer count of milliseconds since the epoch, or
      [Invalid] (the NaN time value).  Local time is UTC plus a constant
      offset [tza] (a zone without daylight-saving transitions).
    - The page is a record of the elements the code looks up by id; an absent
      element is [None], and every early return of the source on a missing
      element is kept.
    - Exceptions are explicit: a function that can throw returns a
      [completion]. *)

From Stdlib Require Import ZArith List String Ascii Bool Lia.
From Stdlib Require Import Sorted Permutation DecimalString.
Import ListNotations.

Local Open Scope list_scope.
Local Open Scope string_scope.
Local Open Scope Z_scope.

(** ** Host strings *)

Module JSString.

(** The double quote character, used inside the markup templates. *)
Definition dq : string := String (ascii_of_nat 34) "".

(** Line feed. *)
Definition LF : ascii := ascii_of_nat 10.
Definition CR : ascii := ascii_of_nat 13.
Definition nl : string := String LF "".

(** [n] spaces: the indentation inside the template literals. *)
Fixpoint sp (n : nat) : string :=
  match n with
  | O => ""
  | S k => String " " (sp k)
  end.

(** White space and line terminators: TAB, LF, VT, FF, CR, SP, NBSP. *)
Definition is_ws (c : ascii) : bool :=
  let n := nat_of_ascii c in
  (Nat.eqb n 9 || Nat.eqb n 10 || Nat.eqb n 11 || Nat.eqb n 12
   || Nat.eqb n 13 || Nat.eqb n 32 || Nat.eqb n 160)%bool.

Definition isEmpty (s : string) : bool :=
  match s with
  | "" => true
  | String _ _ => false
  end.

Fixpoint trimStart (s : string) : string :=
  match s with
  | "" => ""
  | String c r => if is_ws c then trimStart r else s
  end.

Fixpoint trimEnd (s : string) : string :=
  match s with
  | "" => ""
  | String c r =>
      let r' := trimEnd r in
      if (is_ws c && isEmpty r')%bool then "" else String c r'
  end.

(** [String.prototype.trim]. *)
Definition trim (s : string) : string := trimEnd (trimStart s).

(** [String.prototype.split] with a one-character separator: the list is
    never empty, and the empty string splits into one empty string. *)
Fixpoint split (sep : ascii) (s : string) : list string :=
  match s with
  | "" => [""]
  | String c r =>
      let parts := split sep r in
      if Ascii.eqb c sep then "" :: parts
      else match parts with
           | p :: ps => String c p :: ps
           | [] => [String c ""]
           end
  end.

(** [Array.prototype.join]. *)
Fixpoint join (sep : string) (l : list string) : string :=
  match l with
  | [] => ""
  | [x] => x
  | x :: rest => x ++ sep ++ join sep rest
  end.

(** [String.prototype.startsWith]. *)
Definition startsWith (s pre : string) : bool := String.prefix pre s.

Fixpoint drop (n : nat) (s : string) : string :=
  match n, s with
  | O, _ => s
  | S k, String _ r => drop k r
  | S _, "" => ""
  end.

(** [String.prototype.replace] with a string pattern: the first occurrence
    only.  The replacement strings used by the program contain no [$]. *)
Fixpoint replace (pat rep s : string) : string :=
  match s with
  | "" => if isEmpty pat then rep else ""
  | String c r =>
      if String.prefix pat s then rep ++ drop (String.length pat) s
      else String c (replace pat rep r)
  end.

(** [String.prototype.padStart] with a one-character filler. *)
Definition padStart (n : nat) (fill : ascii) (s : string) : string :=
  string_of_list_ascii (repeat fill (n - String.length s)) ++ s.

Definition contains (c : ascii) (s : string) : bool :=
  existsb (Ascii.eqb c) (list_ascii_of_string s).

(** The value a [textarea] reports after an assignment to [value]: line
    breaks are normalised, CR LF and a lone CR both become LF. *)
Fixpoint normalizeNewlines (s : string) : string :=
  match s with
  | "" => ""
  | String c r =>
      if Ascii.eqb c CR then
        match r with
        | String c' r' =>
            if Ascii.eqb c' LF then String LF (normalizeNewlines r')
            else String LF (normalizeNewlines r)
        | "" => nl
        end
      else String c (normalizeNewlines r)
  end.

End JSString.

(** ** Host numbers *)

Module JSNumber.
Import JSString.

(** A Number of the embedding.  [Dec m p] is the exact decimal
    [m / 10^p]; the canonical form has [p = 0] or [m] not divisible by ten
    (an integer is [Dec z 0]).  Negative zero is identified with zero: the
    program cannot tell them apart.  The values are exact: the rounding of
    a literal or of an arithmetic result to binary64 is not modelled, which
    agrees with the host on integers of magnitude below [2^53] and on the
    time-of-day fields the program reads. *)
Inductive number : Set :=
| NaN : number
| Infinity (negative : bool) : number
| Dec (m : Z) (p : nat) : number.

Definition ofZ (z : Z) : number := Dec z 0.

Fixpoint canon (m : Z) (p : nat) : number :=
  match p with
  | O => Dec m 0
  | S p' => if m mod 10 =? 0 then canon (m / 10) p' else Dec m p
  end.

Definition pow10 (p : nat) : Z := 10 ^ Z.of_nat p.

(** *** [Number(string)]: the StringNumericLiteral grammar *)

Definition digitValue (base : Z) (c : ascii) : option Z :=
  let n := Z.of_nat (nat_of_ascii c) in
  let v := if (48 <=? n) && (n <=? 57) then n - 48
           else if (97 <=? n) && (n <=? 102) then n - 87
           else if (65 <=? n) && (n <=? 70) then n - 55
           else 99 in
  if v <? base then Some v else None.

(** Reads the longest prefix of digits in [base]: the value, the number of
    digits read, and the rest of the input. *)
Fixpoint readDigits (base : Z) (s : string) (acc : Z) (count : nat)
  : Z * nat * string :=
  match s with
  | "" => (acc, count, "")
  | String c r =>
      match digitValue base c with
      | Some v => readDigits base r (base * acc + v) (S count)
      | None => (acc, count, s)
      end
  end.

(** An optional sign: [true] for a minus. *)
Definition readSign (s : string) : bool * string :=
  match s with
  | String "+" r => (false, r)
  | String "-" r => (true, r)
  | _ => (false, s)
  end.

(** ExponentPart, or nothing; [None] when the rest is not an exponent
    followed by the end of the literal. *)
Definition readExponent (s : string) : option Z :=
  match s with
  | "" => Some 0
  | String c r =>
      if (Ascii.eqb c "e" || Ascii.eqb c "E")%bool then
        let '(neg, r1) := readSign r in
        let '(e, n, r2) := readDigits 10 r1 0 O in
        match n, r2 with
        | S _, "" => Some (if neg then - e else e)
        | _, _ => None
        end
      else None
  end.

(** The value [m * 10^e] as a canonical [number]. *)
Definition scale (m e : Z) : number :=
  if 0 <=? e then Dec (m * 10 ^ e) 0 else canon m (Z.to_nat (- e)).

(** StrUnsignedDecimalLiteral without the [Infinity] alternative. *)
Definition unsignedDecimal (neg : bool) (s : string) : number :=
  let sgn (m : Z) := if neg then - m else m in
  let '(ip, ni, r1) := readDigits 10 s 0 O in
  match r1 with
  | String "." r2 =>
      let '(fp, nf, r3) := readDigits 10 r2 0 O in
      match ni, nf with
      | O, O => NaN
      | _, _ =>
          match readExponent r3 with
          | Some e => scale (sgn (ip * pow10 nf + fp)) (e - Z.of_nat nf)
          | None => NaN
          end
      end
  | _ =>
      match ni with
      | O => NaN
      | S _ =>
          match readExponent r1 with
          | Some e => scale (sgn ip) e
          | None => NaN
          end
      end
  end.

(** NonDecimalIntegerLiteral: [0x], [0o], [0b] in either case, unsigned. *)
Definition nonDecimal (s : string) : option number :=
  match s with
  | String "0" (String k r) =>
      let base :=
        if (Ascii.eqb k "x" || Ascii.eqb k "X")%bool then Some 16
        else if (Ascii.eqb k "o" || Ascii.eqb k "O")%bool then Some 8
        else if (Ascii.eqb k "b" || Ascii.eqb k "B")%bool then Some 2
        else None in
      match base with
      | Some b =>
          let '(v, n, rest) := readDigits b r 0 O in
          match n, rest with
          | S _, "" => Some (Dec v 0)
          | _, _ => Some NaN
          end
      | None => None
      end
  | _ => None
  end.

(** [Number(s)] for a string argument (StringToNumber). *)
Definition Number (s : string) : number :=
  let t := trim s in
  if isEmpty t then Dec 0 0
  else match nonDecimal t with
       | Some v => v
       | None =>
           let '(neg, u) := readSign t in
           if String.eqb u "Infinity" then Infinity neg
           else unsignedDecimal neg u
       end.

(** *** Arithmetic the program uses *)

Definition isFinite (x : number) : bool :=
  match x with
  | Dec _ _ => true
  | _ => false
  end.

(** ToIntegerOrInfinity on a finite Number: truncation toward zero. *)
Definition truncate (m : Z) (p : nat) : Z := Z.quot m (pow10 p).

(** [x >= k] for an integer [k]. *)
Definition geZ (x : number) (k : Z) : bool :=
  match x with
  | NaN => false
  | Infinity neg => negb neg
  | Dec m p => k * pow10 p <=? m
  end.

(** [x <= k] for an integer [k]. *)
Definition leZ (x : number) (k : Z) : bool :=
  match x with
  | NaN => false
  | Infinity neg => neg
  | Dec m p => m <=? k * pow10 p
  end.

(** [x % k] for a positive integer [k]: the sign follows the dividend. *)
Definition remZ (x : number) (k : Z) : number :=
  match x with
  | Dec m p => canon (Z.rem m (k * pow10 p)) p
  | _ => NaN
  end.

(** ToBoolean on a Number. *)
Definition truthy (x : number) : bool :=
  match x with
  | NaN => false
  | Infinity _ => true
  | Dec m _ => negb (m =? 0)
  end.

(** [x !== k] for an integer [k]. *)
Definition neZ (x : number) (k : Z) : bool :=
  match x with
  | Dec m O => negb (m =? k)
  | _ => true
  end.

(** *** [Number.prototype.toString] (radix ten) *)

Definition digitsOf (n : Z) : string :=
  NilZero.string_of_uint (N.to_uint (Z.to_N n)).

Fixpoint stripZeros (l : list ascii) : list ascii :=
  match l with
  | "0"%char :: r => stripZeros r
  | _ => l
  end.

(** The decimal digits of [n > 0] without trailing zeros. *)
Definition significand (n : Z) : string :=
  string_of_list_ascii
    (rev (stripZeros (rev (list_ascii_of_string (digitsOf n))))).

Definition zeros (n : nat) : string := string_of_list_ascii (repeat "0"%char n).

(** Number::toString for a positive decimal [m / 10^p]: with [s] the
    significand of [k] digits and [n] the position of the decimal point,
    the four layouts of the language definition. *)
Definition positiveToString (m : Z) (p : nat) : string :=
  let s := significand m in
  let k := Z.of_nat (String.length s) in
  let n := Z.of_nat (String.length (digitsOf m)) - Z.of_nat p in
  if (k <=? n) && (n <=? 21) then s ++ zeros (Z.to_nat (n - k))
  else if (0 <? n) && (n <=? 21) then
    substring 0 (Z.to_nat n) s ++ "." ++ drop (Z.to_nat n) s
  else if (-6 <? n) && (n <=? 0) then "0." ++ zeros (Z.to_nat (- n)) ++ s
  else
    let e := n - 1 in
    let es := (if e <? 0 then "-" else "+") ++ digitsOf (Z.abs e) in
    match s with
    | String d "" => String d "" ++ "e" ++ es
    | String d r => String d "" ++ "." ++ r ++ "e" ++ es
    | "" => ""
    end.

Definition toString (x : number) : string :=
  match x with
  | NaN => "NaN"
  | Infinity neg => if neg then "-Infinity" else "Infinity"
  | Dec m p =>
      if m =? 0 then "0"
      else if m <? 0 then "-" ++ positiveToString (- m) p
      else positiveToString m p
  end.

End JSNumber.

(** ** Host dates *)

Module JSDate.
Import JSNumber.

(** A [Date] object's time value: milliseconds since the epoch in UTC, or
    the NaN time value. *)
Inductive date : Set :=
| Invalid : date
| TV (t : Z) : date.

Definition msPerDay : Z := 86400000.
Definition msPerHour : Z := 3600000.
Definition msPerMinute : Z := 60000.
Definition msPerSecond : Z := 1000.

Definition Day (t : Z) : Z := t / msPerDay.
Definition TimeWithinDay (t : Z) : Z := t mod msPerDay.

(** Local time in a zone of constant offset [tza] milliseconds. *)
Definition LocalTime (tza t : Z) : Z := t + tza.
Definition UTC (tza t : Z) : Z := t - tza.

(** ToNumber of an argument that may be [undefined]. *)
Definition ToNumber (x : option number) : number :=
  match x with
  | Some n => n
  | None => NaN
  end.

Definition ToIntegerOrInfinity (x : number) : option Z :=
  match x with
  | Dec m p => Some (truncate m p)
  | _ => None
  end.

(** MakeTime: [None] stands for NaN. *)
Definition MakeTime (hour min sec ms : number) : option Z :=
  match ToIntegerOrInfinity hour, ToIntegerOrInfinity min,
        ToIntegerOrInfinity sec, ToIntegerOrInfinity ms with
  | Some h, Some m, Some s, Some milli =>
      Some (h * msPerHour + m * msPerMinute + s * msPerSecond + milli)
  | _, _, _, _ => None
  end.

Definition MakeDate (day : option Z) (time : option Z) : option Z :=
  match day, time with
  | Some d, Some t => Some (d * msPerDay + t)
  | _, _ => None
  end.

Definition TimeClip (t : option Z) : date :=
  match t with
  | Some v => if Z.abs v >? 8640000000000000 then Invalid else TV v
  | None => Invalid
  end.

(** DateFromTime, on a day number: the day of the month (1 to 31) in the
    proleptic Gregorian calendar, by the era / day-of-era computation. *)
Definition DateFromDay (d : Z) : Z :=
  let z := d + 719468 in
  let era := z / 146097 in
  let doe := z - era * 146097 in
  let yoe := (doe - doe / 1460 + doe / 36524 - doe / 146096) / 365 in
  let doy := doe - (365 * yoe + yoe / 4 - yoe / 100) in
  let mp := (5 * doy + 2) / 153 in
  doy - (153 * mp + 2) / 5 + 1.

(** MakeDay(YearFromTime(t), MonthFromTime(t), dt) for a local time [t]:
    the first day of the month of [t] is [Day t - DateFromTime t + 1]. *)
Definition MakeDayInMonthOf (t : Z) (dt : number) : option Z :=
  match ToIntegerOrInfinity dt with
  | Some n => Some (Day t - DateFromDay (Day t) + 1 + n - 1)
  | None => None
  end.

(** [Date.prototype.setHours(hour, min, sec, ms)], all four arguments
    passed. *)
Definition setHours (tza : Z) (d : date) (hour min sec ms : option number)
  : date :=
  let h := ToNumber hour in
  let m := ToNumber min in
  let s := ToNumber sec in
  let milli := ToNumber ms in
  match d with
  | Invalid => Invalid
  | TV t0 =>
      let t := LocalTime tza t0 in
      match MakeDate (Some (Day t)) (MakeTime h m s milli) with
      | Some v => TimeClip (Some (UTC tza v))
      | None => Invalid
      end
  end.

(** [Date.prototype.getDate]. *)
Definition getDate (tza : Z) (d : date) : number :=
  match d with
  | Invalid => NaN
  | TV t0 => ofZ (DateFromDay (Day (LocalTime tza t0)))
  end.

(** [Date.prototype.setDate]. *)
Definition setDate (tza : Z) (d : date) (dt : number) : date :=
  match d with
  | Invalid => Invalid
  | TV t0 =>
      let t := LocalTime tza t0 in
      match MakeDate (MakeDayInMonthOf t dt) (Some (TimeWithinDay t)) with
      | Some v => TimeClip (Some (UTC tza v))
      | None => Invalid
      end
  end.

(** [x + 1] on a Number holding an integer or NaN. *)
Definition addOne (x : number) : number :=
  match x with
  | Dec m O => Dec (m + 1) 0
  | Dec m p => canon (m + pow10 p) p
  | other => other
  end.

(** [a < b] on two dates (both converted to their time values). *)
Definition lt (a b : date) : bool :=
  match a, b with
  | TV x, TV y => x <? y
  | _, _ => false
  end.

(** [a - b] on two dates. *)
Definition minus (a b : date) : number :=
  match a, b with
  | TV x, TV y => ofZ (x - y)
  | _, _ => NaN
  end.

(** [Math.round(x / d1 / d2)] for positive integers [d1], [d2]: the integer
    nearest to the quotient, a tie going to the larger one.  The two
    divisions are exact here; on the host each is rounded to binary64,
    which gives the same integer whenever the difference is below [2^45]
    milliseconds (a thousand years), far beyond what a clock and a time of
    day can differ by. *)
Definition roundQuotient (x : number) (d1 d2 : Z) : number :=
  match x with
  | Dec m p =>
      let d := pow10 p * d1 * d2 in
      Dec ((2 * m + d) / (2 * d)) 0
  | other => other
  end.

End JSDate.

(** ** Host collections *)

Module JSMap.

(** A [Map] with string keys and string values: the entries in insertion
    order, one per key. *)
Definition Map : Set := list (string * string).

Definition empty : Map := [].

(** [Map.prototype.set]: an existing key keeps its position and takes the
    new value; a new key goes to the end. *)
Fixpoint set (k v : string) (m : Map) : Map :=
  match m with
  | [] => [(k, v)]
  | (k', v') :: rest =>
      if String.eqb k k' then (k, v) :: rest
      else (k', v') :: set k v rest
  end.

(** [Map.prototype.clear]. *)
Definition clear (m : Map) : Map := [].

Fixpoint get (k : string) (m : Map) : option string :=
  match m with
  | [] => None
  | (k', v) :: rest => if String.eqb k k' then Some v else get k rest
  end.

(** [[...m.entries()]]. *)
Definition entries (m : Map) : list (string * string) := m.

Definition keys (m : Map) : list string := map fst m.

(** [Object.entries(o).forEach(([k, v]) => m.set(k, v))]. *)
Definition setAll (o : list (string * string)) (m : Map) : Map :=
  fold_left (fun acc kv => set (fst kv) (snd kv) acc) o m.

End JSMap.

Module JSArray.

Section Sort.
Context {A : Type}.
(** [le a b] holds when the comparator does not put [b] before [a]. *)
Variable le : A -> A -> bool.

Fixpoint insert (x : A) (l : list A) : list A :=
  match l with
  | [] => [x]
  | y :: ys => if le x y then x :: l else y :: insert x ys
  end.

(** [Array.prototype.sort]: the sort is stable, so with a consistent
    comparator the result is the one computed here, each element placed
    before the elements that followed it and compare equal to it. *)
Fixpoint sort (l : list A) : list A :=
  match l with
  | [] => []
  | x :: xs => insert x (sort xs)
  end.
End Sort.

(** ToString of a two-element array of strings: the elements joined by a
    comma. *)
Definition pairToString (e : string * string) : string :=
  fst e ++ "," ++ snd e.

(** The default comparator: the elements are converted to strings and
    compared by code units. *)
Definition defaultLe (a b : string * string) : bool :=
  String.leb (pairToString a) (pairToString b).

Definition sortDefault (l : list (string * string)) : list (string * string) :=
  sort defaultLe l.

End JSArray.

Import JSString JSNumber JSDate.

(** ** Exceptions and the page *)

(** A thrown value: an [Error] object, of which the program reads only
    [message].  The messages of the errors raised by the host itself are
    those of V8. *)
Record exn : Set := mkExn { ename : string; message : string }.

Definition Error (msg : string) : exn := mkExn "Error" msg.

Definition TypeError_undefined (prop : string) : exn :=
  mkExn "TypeError"
    ("Cannot read properties of undefined (reading '" ++ prop ++ "')").

Definition TypeError_toObject : exn :=
  mkExn "TypeError" "Cannot convert undefined or null to object".

Inductive completion (A : Type) : Type :=
| Normal (a : A)
| Throw (e : exn).
Arguments Normal {A} a.
Arguments Throw {A} e.

(** One alert of the flash container: the notification type and message. *)
Record alert : Set := mkAlert { alertType : string; alertMessage : string }.

(** An [option] element of the [#newType] select. *)
Record selectOption : Set :=
  mkOption { optText : string; optValue : string; optSelected : bool }.

(** The elements the program looks up, [None] when the page lacks one.
    - [flashContainer]: the alerts inserted into [.flash-container];
    - [loadingOverlay]: whether [#loadingOverlay] carries the class [active];
    - [scheduleList], [upcomingList], [customTypesList]: the markup written
      into the element;
    - [timesTextarea], [customTypesTextarea]: the value of the text area;
    - [newTime], [newTypeName], [newTypeTemplate]: the value of the input;
    - [newType]: the options of the select. *)
Record Page : Set := mkPage {
  flashContainer : option (list alert);
  loadingOverlay : option bool;
  scheduleList : option string;
  timesTextarea : option string;
  upcomingList : option string;
  customTypesList : option string;
  customTypesTextarea : option string;
  newTime : option string;
  newType : option (list selectOption);
  newTypeName : option string;
  newTypeTemplate : option string
}.

(** The program state: the two caches ([scheduleEditor.times] and
    [customTypes.types]) and the page. *)
Record State : Set := mkState {
  times : JSMap.Map;
  types : JSMap.Map;
  page : Page
}.

Definition withTimes (m : JSMap.Map) (s : State) : State :=
  mkState m (types s) (page s).

Definition withTypes (m : JSMap.Map) (s : State) : State :=
  mkState (times s) m (page s).

Definition withPage (p : Page) (s : State) : State :=
  mkState (times s) (types s) p.

(** Assignments to one element of the page. *)
Definition setFlash (v : list alert) (p : Page) : Page :=
  mkPage (Some v) (loadingOverlay p) (scheduleList p) (timesTextarea p)
    (upcomingList p) (customTypesList p) (customTypesTextarea p) (newTime p)
    (newType p) (newTypeName p) (newTypeTemplate p).

Definition setOverlay (v : bool) (p : Page) : Page :=
  mkPage (flashContainer p) (Some v) (scheduleList p) (timesTextarea p)
    (upcomingList p) (customTypesList p) (customTypesTextarea p) (newTime p)
    (newType p) (newTypeName p) (newTypeTemplate p).

Definition setScheduleList (v : string) (p : Page) : Page :=
  mkPage (flashContainer p) (loadingOverlay p) (Some v) (timesTextarea p)
    (upcomingList p) (customTypesList p) (customTypesTextarea p) (newTime p)
    (newType p) (newTypeName p) (newTypeTemplate p).

(** An assignment to [value] of a text area; reading it back yields the
    text with its line breaks normalised. *)
Definition setTimesTextarea (v : string) (p : Page) : Page :=
  mkPage (flashContainer p) (loadingOverlay p) (scheduleList p)
    (Some (normalizeNewlines v))
    (upcomingList p) (customTypesList p) (customTypesTextarea p) (newTime p)
    (newType p) (newTypeName p) (newTypeTemplate p).

Definition setUpcomingList (v : string) (p : Page) : Page :=
  mkPage (flashContainer p) (loadingOverlay p) (scheduleList p)
    (timesTextarea p) (Some v) (customTypesList p) (customTypesTextarea p)
    (newTime p) (newType p) (newTypeName p) (newTypeTemplate p).

Definition setCustomTypesList (v : string) (p : Page) : Page :=
  mkPage (flashContainer p) (loadingOverlay p) (scheduleList p)
    (timesTextarea p) (upcomingList p) (Some v) (customTypesTextarea p)
    (newTime p) (newType p) (newTypeName p) (newTypeTemplate p).

Definition setCustomTypesTextarea (v : string) (p : Page) : Page :=
  mkPage (flashContainer p) (loadingOverlay p) (scheduleList p)
    (timesTextarea p) (upcomingList p) (customTypesList p)
    (Some (normalizeNewlines v))
    (newTime p) (newType p) (newTypeName p) (newTypeTemplate p).

Definition setNewType (v : list selectOption) (p : Page) : Page :=
  mkPage (flashContainer p) (loadingOverlay p) (scheduleList p)
    (timesTextarea p) (upcomingList p) (customTypesList p)
    (customTypesTextarea p) (newTime p) (Some v) (newTypeName p)
    (newTypeTemplate p).



(** A statement of the program: it transforms the state and either completes
    or throws. *)
Definition Eff : Type := State -> State * option exn.

Definition skip : Eff := fun s => (s, None).

Definition throw (e : exn) : Eff := fun s => (s, Some e).

Definition seq (a b : Eff) : Eff :=
  fun s =>
    match a s with
    | (s', None) => b s'
    | (s', Some e) => (s', Some e)
    end.

Definition tryCatch (body : Eff) (handler : exn -> Eff) : Eff :=
  fun s =>
    match body s with
    | (s', None) => (s', None)
    | (s', Some e) => handler e s'
    end.

Definition tryFinally (body : Eff) (final : Eff) : Eff :=
  fun s =>
    match body s with
    | (s', None) => final s'
    | (s', Some e) =>
        match final s' with
        | (s'', None) => (s'', Some e)
        | (s'', Some e') => (s'', Some e')
        end
    end.

Definition modify (f : State -> State) : Eff := fun s => (f s, None).

Notation "a ;; b" := (seq a b) (at level 61, right associativity).

(** ** The server *)

(** The body of a JSON response: an object, with the fields the program
    reads; a field the response does not carry is [None].  [times] and
    [custom_types] are objects with string values, given by their entries in
    the order [Object.entries] lists them. *)
Record body : Set := mkBody {
  b_error : option string;
  b_status : option string;
  b_times : option (list (string * string));
  b_custom_types : option (list (string * string))
}.

(** The outcome of one [fetch]: the promise is rejected (the request could
    not be completed), or a response arrives with its [ok] flag and what
    [response.json()] settles to. *)
Inductive fetched : Set :=
| Rejected (e : exn)
| Responded (ok : bool) (json : completion body).

(** ** Utils *)

Module Utils.

(** [Utils.formatTime]: a TimeKey in twelve-hour form.  [minutes] is
    undefined when the argument has no colon, and [minutes.toString()]
    throws. *)
Definition formatTime (time : string) : completion string :=
  let parts := map Number (split ":" time) in
  let hours := match parts with h :: _ => h | [] => NaN end in
  let minutes := nth_error parts 1 in
  let period := if geZ hours 12 then "PM" else "AM" in
  let displayHours :=
    let r := remZ hours 12 in if truthy r then r else ofZ 12 in
  match minutes with
  | Some mn =>
      Normal (toString displayHours ++ ":" ++ padStart 2 "0" (toString mn)
              ++ " " ++ period)
  | None => Throw (TypeError_undefined "toString")
  end.

(** [Utils.formatMinutes]. *)
Definition formatMinutes (minutes : number) : string :=
  toString minutes ++ " minute" ++ (if neZ minutes 1 then "s" else "").

(** [Utils.showNotification]: nothing happens without a flash container.
    The alert stays until it is closed or its five seconds elapse, which
    the embedding does not follow. *)
Definition showNotification (msg type : string) : Eff :=
  modify (fun s =>
    let p := page s in
    match flashContainer p with
    | None => s
    | Some alerts =>
        withPage (setFlash (alerts ++ [mkAlert type msg])%list p) s
    end).

End Utils.

Module UI.

Definition setLoading (b : bool) : Eff :=
  modify (fun s =>
    let p := page s in
    match loadingOverlay p with
    | None => s
    | Some _ => withPage (setOverlay b p) s
    end).

Definition showLoading : Eff := setLoading true.
Definition hideLoading : Eff := setLoading false.

End UI.

(** ** Type labels *)

(** What a property read on a plain object yields: a string of the object
    itself, or a member inherited from [Object.prototype]. *)
Inductive jsval : Set :=
| VString (s : string)
| VInherited (key : string).

(** The label table of both renderers. *)
Definition typeLabels : list (string * string) :=
  [(":55", "Color Warning"); ("hour", "Hour Change"); ("rules", "Rules");
   ("ad", "Advertisement")].

(** The property names every object inherits from [Object.prototype]. *)
Definition ObjectPrototypeKeys : list string :=
  ["constructor"; "hasOwnProperty"; "isPrototypeOf"; "propertyIsEnumerable";
   "toLocaleString"; "toString"; "valueOf"; "__proto__";
   "__defineGetter__"; "__defineSetter__"; "__lookupGetter__";
   "__lookupSetter__"].

(** [typeLabels[type]]: [None] is [undefined]. *)
Definition getLabel (type : string) : option jsval :=
  match JSMap.get type typeLabels with
  | Some l => Some (VString l)
  | None =>
      if existsb (String.eqb type) ObjectPrototypeKeys
      then Some (VInherited type) else None
  end.

(** The expression both renderers evaluate:
    [type.startsWith('custom:') ? `Custom: ${type.replace('custom:', '')}`
                               : typeLabels[type] || type].
    Every value of the table and every inherited member is truthy. *)
Definition typeLabel (type : string) : jsval :=
  if startsWith type "custom:"
  then VString ("Custom: " ++ replace "custom:" "" type)
  else match getLabel type with
       | Some v => v
       | None => VString type
       end.

(** ToString of a label inside a template literal.  An inherited member is a
    built-in function, printed as V8 prints it, except [__proto__], which is
    the prototype object itself. *)
Definition labelText (v : jsval) : string :=
  match v with
  | VString s => s
  | VInherited k =>
      if String.eqb k "__proto__" then "[object Object]"
      else "function " ++ k ++ "() { [native code] }"
  end.

(** A quoted attribute value. *)
Definition q (s : string) : string := dq ++ s ++ dq.

(** ** Schedule editor *)

Module scheduleEditor.

(** The markup of one entry of the schedule list. *)
Definition itemHtml (time type timeText label : string) : string :=
  nl ++ sp 20 ++ "<div class=" ++ q "schedule-item" ++ " data-type="
     ++ q type ++ ">"
  ++ nl ++ sp 24 ++ "<span class=" ++ q "time" ++ ">" ++ timeText
     ++ "</span>"
  ++ nl ++ sp 24 ++ "<span class=" ++ q "type" ++ ">" ++ label ++ "</span>"
  ++ nl ++ sp 24 ++ "<div class=" ++ q "actions" ++ ">"
  ++ nl ++ sp 28 ++ "<button type=" ++ q "button" ++ " class="
     ++ q "btn-delete" ++ " onclick="
     ++ q ("scheduleEditor.deleteTime('" ++ time ++ "')") ++ ">"
  ++ nl ++ sp 32 ++ "<i class=" ++ q "fa-solid fa-trash-alt" ++ "></i>"
  ++ nl ++ sp 28 ++ "</button>"
  ++ nl ++ sp 24 ++ "</div>"
  ++ nl ++ sp 20 ++ "</div>"
  ++ nl ++ sp 16.

Definition emptyHtml : string :=
  "<div class=" ++ q "schedule-item" ++ "><span class=" ++ q "type"
  ++ ">No announcements scheduled</span></div>".

(** The body of [timeEntries.forEach]: [html += ...] for the entries in
    order; [Utils.formatTime] may throw. *)
Fixpoint renderEntries (html : string) (es : list (string * string))
  : completion string :=
  match es with
  | [] => Normal html
  | (time, type) :: rest =>
      let label := labelText (typeLabel type) in
      match Utils.formatTime time with
      | Normal timeText =>
          renderEntries (html ++ itemHtml time type timeText label) rest
      | Throw e => Throw e
      end
  end.

(** One line of the text area per entry. *)
Definition entryLine (e : string * string) : string :=
  fst e ++ " = " ++ snd e.

(** [timeEntries.map(...).join('\n')]. *)
Definition serialize (es : list (string * string)) : string :=
  join nl (map entryLine es).

(** [[...this.times.entries()].sort()]. *)
Definition timeEntries (m : JSMap.Map) : list (string * string) :=
  JSArray.sortDefault (JSMap.entries m).

(** [scheduleEditor.updateScheduleList]. *)
Definition updateScheduleList : Eff :=
  fun s =>
    let p := page s in
    match scheduleList p, timesTextarea p with
    | Some _, Some _ =>
        let es := timeEntries (times s) in
        let html :=
          match es with
          | [] => Normal emptyHtml
          | _ :: _ => renderEntries "" es
          end in
        match html with
        | Normal h =>
            (withPage (setTimesTextarea (serialize es)
                         (setScheduleList h p)) s, None)
        | Throw e => (s, Some e)
        end
    | _, _ => (s, None)
    end.

End scheduleEditor.

(** ** Custom types *)

Module customTypes.

Definition itemHtml (name template : string) : string :=
  nl ++ sp 20 ++ "<div class=" ++ q "custom-type-item" ++ ">"
  ++ nl ++ sp 24 ++ "<span class=" ++ q "name" ++ ">" ++ name ++ "</span>"
  ++ nl ++ sp 24 ++ "<span class=" ++ q "template" ++ ">" ++ template
     ++ "</span>"
  ++ nl ++ sp 20 ++ "</div>"
  ++ nl ++ sp 16.

Definition emptyHtml : string :=
  "<div class=" ++ q "custom-type-item" ++ "><span class=" ++ q "type"
  ++ ">No custom types defined</span></div>".

Definition entryLine (e : string * string) : string :=
  fst e ++ " = " ++ snd e.

(** [customTypes.updateTypesList]: the entries in insertion order. *)
Definition updateTypesList : Eff :=
  modify (fun s =>
    let p := page s in
    match customTypesList p, customTypesTextarea p with
    | Some _, Some _ =>
        let es := JSMap.entries (types s) in
        let html :=
          match es with
          | [] => emptyHtml
          | _ :: _ =>
              String.concat "" (map (fun e => itemHtml (fst e) (snd e)) es)
          end in
        withPage (setCustomTypesTextarea (join nl (map entryLine es))
                    (setCustomTypesList html p)) s
    | _, _ => s
    end).

(** What the page does when an option enters a drop-down select (one
    choice, no disabled option): with no option selected the first one
    becomes selected, and of several selected options only the last remains
    so. *)
Fixpoint keepLastSelected (os : list selectOption) : list selectOption :=
  match os with
  | [] => []
  | o :: rest =>
      if existsb optSelected rest
      then mkOption (optText o) (optValue o) false :: keepLastSelected rest
      else o :: rest
  end.

Definition settle (os : list selectOption) : list selectOption :=
  if existsb optSelected os then keepLastSelected os
  else match os with
       | [] => []
       | o :: rest => mkOption (optText o) (optValue o) true :: rest
       end.

(** [typeSelect.add(option)]. *)
Definition add (o : selectOption) (os : list selectOption)
  : list selectOption :=
  settle (os ++ [o])%list.

(** [customTypes.updateTypeDropdown]: the options that are not custom are
    kept, then one option per custom type is appended. *)
Definition updateTypeDropdown : Eff :=
  modify (fun s =>
    let p := page s in
    match newType p with
    | Some options =>
        let builtInOptions :=
          filter (fun o => negb (startsWith (optValue o) "custom:"))
                 options in
        let os1 := fold_left (fun acc o => add o acc) builtInOptions [] in
        let os2 :=
          fold_left
            (fun acc e =>
               add (mkOption ("Custom: " ++ fst e) ("custom:" ++ fst e)
                      false) acc)
            (JSMap.entries (types s)) os1 in
        withPage (setNewType os2 p) s
    | None => s
    end).

End customTypes.

(** ** Upcoming announcements *)

(** One element of [upcoming]: [type] is [None] when the line had no [=]
    (the second element of the destructured array is undefined). *)
Record item : Set := mkItem {
  time : string;
  type : option string;
  minutesUntil : number;
  scheduleTime : date
}.

(** The optional colour data: the [color] of [color3] and of [color4], [None]
    when the entry or its colour is missing. *)
Record colors : Set := mkColors {
  color3 : option string;
  color4 : option string
}.

(** [scheduleTime] after [setHours] and the roll-over test. *)
Definition occurrence (tza : Z) (now : Z) (hours : number)
  (minutes : option number) : date :=
  let scheduleTime := TV now in
  let scheduleTime :=
    setHours tza scheduleTime (Some hours) minutes (Some (ofZ 0))
      (Some (ofZ 0)) in
  if JSDate.lt scheduleTime (TV now)
  then setDate tza scheduleTime (addOne (getDate tza scheduleTime))
  else scheduleTime.

(** [const [timeStr, type] = line.split('=').map(part => part.trim())]. *)
Definition parseLine (line : string) : string * option string :=
  let parts := map trim (split "=" line) in
  (match parts with t :: _ => t | [] => "" end, nth_error parts 1).

(** The callback of [lines.map]: [None] is [null]. *)
Definition projectLine (tza : Z) (now : Z) (line : string) : option item :=
  let '(timeStr, type) := parseLine line in
  let nums := map Number (split ":" timeStr) in
  let hours := match nums with h :: _ => h | [] => NaN end in
  let minutes := nth_error nums 1 in
  let scheduleTime := occurrence tza now hours minutes in
  let minutesUntil := roundQuotient (minus scheduleTime (TV now)) 1000 60 in
  if leZ minutesUntil 60
  then Some (mkItem timeStr type minutesUntil scheduleTime)
  else None.

(** [.filter(item => item !== null)] after the map. *)
Fixpoint retained (l : list (option item)) : list item :=
  match l with
  | [] => []
  | Some it :: rest => it :: retained rest
  | None :: rest => retained rest
  end.

(** The comparator [(a, b) => a.scheduleTime - b.scheduleTime] does not put
    [b] first; a NaN difference counts as zero. *)
Definition byScheduleTime (a b : item) : bool :=
  match minus (scheduleTime a) (scheduleTime b) with
  | Dec m _ => m <=? 0
  | Infinity neg => neg
  | NaN => true
  end.

(** [value.trim().split('\n').filter(line => line.trim())]. *)
Definition nonBlankLines (value : string) : list string :=
  filter (fun line => negb (isEmpty (trim line))) (split LF (trim value)).

(** The array [upcoming] for the text of the [#times] text area. *)
Definition upcomingOf (tza : Z) (now : Z) (value : string) : list item :=
  JSArray.sort byScheduleTime
    (retained (map (projectLine tza now) (nonBlankLines value))).

Module upcoming.

Definition itemHtml (type timeText label colorInfo minutesText : string)
  : string :=
  nl ++ sp 8 ++ "<div class=" ++ q "upcoming-item" ++ " data-type="
     ++ q type ++ ">"
  ++ nl ++ sp 12 ++ "<span class=" ++ q "time" ++ ">" ++ timeText
     ++ "</span>"
  ++ nl ++ sp 12 ++ "<span class=" ++ q "type" ++ ">" ++ label
     ++ colorInfo ++ "</span>"
  ++ nl ++ sp 12 ++ "<span class=" ++ q "countdown" ++ ">in "
     ++ minutesText ++ "</span>"
  ++ nl ++ sp 8 ++ "</div>"
  ++ nl ++ sp 4.

Definition emptyHtml : string :=
  "<div class=" ++ q "upcoming-item empty" ++ "><span class=" ++ q "type"
  ++ ">No announcements scheduled for the next hour</span></div>".

(** The colour suffix of a label. *)
Definition colorInfo (colorData : option colors) (type : string) : string :=
  match colorData with
  | Some cd =>
      if (String.eqb type ":55" || String.eqb type "hour")%bool then
        let c := if String.eqb type ":55" then color3 cd else color4 cd in
        match c with
        | Some color => if isEmpty color then "" else " (" ++ color ++ ")"
        | None => ""
        end
      else ""
  | None => ""
  end.

(** The callback of [upcoming.forEach] for one item: the markup it
    inserts, or the exception it throws ([type.startsWith] on an undefined
    [type], or [Utils.formatTime]). *)
Definition renderItem (colorData : option colors) (it : item)
  : completion string :=
  match type it with
  | None => Throw (TypeError_undefined "startsWith")
  | Some ty =>
      let label := labelText (typeLabel ty) in
      let ci := colorInfo colorData ty in
      match Utils.formatTime (time it) with
      | Normal timeText =>
          Normal (itemHtml ty timeText label ci
                    (Utils.formatMinutes (minutesUntil it)))
      | Throw e => Throw e
      end
  end.

(** [upcoming.forEach]: the markup inserted so far stays in the container
    when an item throws. *)
Fixpoint renderItems (colorData : option colors) (html : string)
  (l : list item) : string * option exn :=
  match l with
  | [] => (html, None)
  | it :: rest =>
      match renderItem colorData it with
      | Normal h => renderItems colorData (html ++ h) rest
      | Throw e => (html, Some e)
      end
  end.

End upcoming.

(** [updateUpcomingAnnouncements(colorData)] at the instant [now]. *)
Definition updateUpcomingAnnouncements (colorData : option colors)
  (tza : Z) (now : Z) : Eff :=
  fun s =>
    let p := page s in
    match upcomingList p with
    | None => (s, None)
    | Some _ =>
        match timesTextarea p with
        | None => (s, None)
        | Some value =>
            match upcomingOf tza now value with
            | [] => (withPage (setUpcomingList upcoming.emptyHtml p) s, None)
            | (_ :: _) as l =>
                let '(html, r) := upcoming.renderItems colorData "" l in
                (withPage (setUpcomingList html p) s, r)
            end
        end
    end.

(** ** Refresh *)

(** [x || fallback] for an optional string. *)
Definition orElse (x : option string) (fallback : string) : string :=
  match x with
  | Some v => if isEmpty v then fallback else v
  | None => fallback
  end.

(** [m.clear(); Object.entries(o).forEach(([k, v]) => m.set(k, v))] on the
    schedule cache; [Object.entries] throws on [undefined]. *)
Definition replaceTimes (o : option (list (string * string))) : Eff :=
  modify (fun s => withTimes (JSMap.clear (times s)) s) ;;
  match o with
  | Some entries =>
      modify (fun s => withTimes (JSMap.setAll entries (times s)) s)
  | None => throw TypeError_toObject
  end.

Definition replaceTypes (o : option (list (string * string))) : Eff :=
  modify (fun s => withTypes (JSMap.clear (types s)) s) ;;
  match o with
  | Some entries =>
      modify (fun s => withTypes (JSMap.setAll entries (types s)) s)
  | None => throw TypeError_toObject
  end.

(** [refreshState()], with [snapshot] the outcome of fetching
    [/get_current_schedule].  The call of
    [dayConfigManager.updateDayConfigInfo] that comes first writes only to
    the day-configuration panel, which the embedding leaves out, and never
    throws.  The [catch] only logs. *)
Definition refreshState (tza now : Z) (snapshot : fetched) : Eff :=
  tryCatch
    (match snapshot with
     | Rejected e => throw e
     | Responded false _ => skip
     | Responded true (Throw e) => throw e
     | Responded true (Normal data) =>
         match b_status data with
         | Some st =>
             if String.eqb st "success" then
               replaceTimes (b_times data) ;;
               scheduleEditor.updateScheduleList ;;
               replaceTypes (b_custom_types data) ;;
               customTypes.updateTypesList ;;
               customTypes.updateTypeDropdown ;;
               updateUpcomingAnnouncements None tza now
             else skip
         | None => skip
         end
     end)
    (fun _ => skip).

(** [await fetch(...); await response.json(); if (!response.ok) throw new
    Error(result.error || fallback)]: the body of the response, or the
    exception. *)
Definition request (r : fetched) (fallback : string) : completion body :=
  match r with
  | Rejected e => Throw e
  | Responded _ (Throw e) => Throw e
  | Responded ok (Normal result) =>
      if ok then Normal result
      else Throw (Error (orElse (b_error result) fallback))
  end.

(** [scheduleEditor.refreshSchedule()], with [r] the outcome of the request
    to [/update_schedule]. *)
Definition refreshSchedule (tza now : Z) (r : fetched) : Eff :=
  UI.showLoading ;;
  tryFinally
    (tryCatch
       (match request r "Failed to refresh schedule" with
        | Throw e => throw e
        | Normal result =>
            replaceTimes (b_times result) ;;
            scheduleEditor.updateScheduleList ;;
            match b_custom_types result with
            | Some _ =>
                replaceTypes (b_custom_types result) ;;
                customTypes.updateTypesList ;;
                customTypes.updateTypeDropdown
            | None => skip
            end ;;
            updateUpcomingAnnouncements None tza now ;;
            Utils.showNotification "Schedule refreshed successfully" "success"
        end)
       (fun error => Utils.showNotification (message error) "error"))
    UI.hideLoading.

(** ** Mutations *)






(** ** Vocabulary of the properties *)

(** The decimal digit [d] as a character. *)
Definition digitChar (d : Z) : ascii := ascii_of_nat (Z.to_nat (48 + d)).

Definition twoDigits (n : Z) : string :=
  String (digitChar (n / 10)) (String (digitChar (n mod 10)) "").

(** The canonical TimeKey [HH:MM] of hour [h] and minute [m]. *)
Definition timeKey (h m : Z) : string := twoDigits h ++ ":" ++ twoDigits m.

Definition isDigit (c : ascii) : bool :=
  let n := nat_of_ascii c in (Nat.leb 48 n && Nat.leb n 57)%bool.

Definition digitOf (c : ascii) : Z := Z.of_nat (nat_of_ascii c) - 48.

(** Whether a string is a canonical TimeKey: two digits, a colon, two
    digits, the hour at most 23 and the minute at most 59. *)
Definition isTimeKey (s : string) : bool :=
  match s with
  | String h1 (String h2 (String c (String m1 (String m2 "")))) =>
      (isDigit h1 && isDigit h2 && Ascii.eqb c ":" && isDigit m1
       && isDigit m2 && (10 * digitOf h1 + digitOf h2 <=? 23)
       && (10 * digitOf m1 + digitOf m2 <=? 59))%bool
  | _ => false
  end.

(** A type token that one line of the serialization carries unchanged: no
    [=], no line break, no white space at either end. *)
Definition plainToken (t : string) : bool :=
  (negb (contains "=" t) && negb (contains LF t) && negb (contains CR t)
   && String.eqb (trim t) t)%bool.

(** The parse step of the projector on the whole text. *)
Definition parseSchedule (value : string) : list (string * option string) :=
  map parseLine (nonBlankLines value).

(** The instant at which the local clock shows [h:m:s.ms] on day [day]. *)
Definition localInstant (tza day h m s ms : Z) : Z :=
  day * msPerDay + h * msPerHour + m * msPerMinute + s * msPerSecond + ms
  - tza.

(** Today's date at [h:m:00.000] local time. *)
Definition todayAt (tza now h m : Z) : Z :=
  localInstant tza (Day (LocalTime tza now)) h m 0 0.

(** The same, moved one calendar day ahead when it lies before [now]. *)
Definition nextOccurrence (tza now h m : Z) : Z :=
  let t := todayAt tza now h m in
  if t <? now then t + msPerDay else t.

(** A number of milliseconds in minutes, rounded to the nearest minute, a
    tie going up. *)
Definition roundedMinutes (d : Z) : Z := (d + 30000) / 60000.

(** The instants for which today and tomorrow are representable dates. *)
Definition inRange (now : Z) : Prop :=
  Z.abs now <= 8640000000000000 - 2 * msPerDay.

(** The sets of a history, applied to an empty cache. *)
Definition afterSets (ops : list (string * string)) : JSMap.Map :=
  JSMap.setAll ops JSMap.empty.

(** The entries of key [t]. *)
Definition hasKey (t : string) (e : string * string) : bool :=
  String.eqb (fst e) t.

(** Ascending order of the keys, by code units. *)
Definition keyLt (a b : string * string) : Prop :=
  String.ltb (fst a) (fst b) = true.

(** The markup of the schedule list for the entries [es], when no time
    fails to format. *)
Definition timeText (time : string) : string :=
  match Utils.formatTime time with
  | Normal t => t
  | Throw _ => ""
  end.

Definition scheduleHtml (es : list (string * string)) : string :=
  match es with
  | [] => scheduleEditor.emptyHtml
  | _ :: _ =>
      String.concat ""
        (map (fun e => scheduleEditor.itemHtml (fst e) (snd e)
                         (timeText (fst e)) (labelText (typeLabel (snd e))))
           es)
  end.

(** What an operator reads off a state: the caches, the schedule list, its
    serialization and the upcoming list. *)
Definition view (s : State)
  : JSMap.Map * JSMap.Map * option string * option string * option string :=
  (times s, types s, scheduleList (page s), timesTextarea (page s),
   upcomingList (page s)).

(** The state that carries a given view and nothing else. *)
Definition ofView
  (v : JSMap.Map * JSMap.Map * option string * option string * option string)
  : State :=
  let '(tm, ty, sl, ta, up) := v in
  mkState tm ty (mkPage None None sl ta up None None None None None None).

(** A statement whose effect on the view, and whose completion, depend on
    the view alone. *)
Definition respectsView (e : Eff) : Prop :=
  forall s1 s2,
    view s1 = view s2 ->
    view (fst (e s1)) = view (fst (e s2)) /\ snd (e s1) = snd (e s2).

(** A statement that leaves one component of the state as it was. *)
Definition keeps {A : Type} (proj : State -> A) (e : Eff) : Prop :=
  forall s, proj (fst (e s)) = proj s.

(** The alerts of the flash container. *)
Definition alertsOf (s : State) : option (list alert) :=
  flashContainer (page s).

(** The lines of a text whose last line has lost its trailing white
    space. *)
Fixpoint trimLast (l : list string) : list string :=
  match l with
  | [] => []
  | [x] => [trimEnd x]
  | x :: rest => x :: trimLast rest
  end.

(** An entry as the parser returns it. *)
Definition parsedEntry (e : string * string) : string * option string :=
  (fst e, Some (snd e)).

(** Whether the time field of a line has an hour and a minute part that
    both convert to finite numbers. *)
Definition numericTime (line : string) : bool :=
  match map Number (split ":" (fst (parseLine line))) with
  | h :: mn :: _ => (isFinite h && isFinite mn)%bool
  | _ => false
  end.

(** An item the renderer handles without throwing. *)
Definition renderable (it : item) : Prop :=
  type it <> None
  /\ exists text, Utils.formatTime (time it) = Normal text.

(** A page with every element present and empty. *)
Definition blankPage : Page :=
  mkPage (Some []) (Some false) (Some "") (Some "") (Some "") (Some "")
    (Some "") (Some "") (Some []) (Some "") (Some "").

(** ** The clock, the configuration switch and their vocabulary *)

Module Clock.

(** [Date.prototype.getHours], [getMinutes] and [getSeconds] of a valid
    date: the fields of the local time. *)
Definition getHours (tza t : Z) : number :=
  ofZ ((LocalTime tza t / msPerHour) mod 24).

Definition getMinutes (tza t : Z) : number :=
  ofZ ((LocalTime tza t / msPerMinute) mod 60).

Definition getSeconds (tza t : Z) : number :=
  ofZ ((LocalTime tza t / msPerSecond) mod 60).

(** [UI.updateClock] at the instant [now]: the new text of [#clock], or
    nothing when the page has no clock. *)
Definition updateClock (tza now : Z) (clock : option string)
  : option string :=
  match clock with
  | None => None
  | Some _ =>
      let hours := getHours tza now in
      let minutes := padStart 2 "0" (toString (getMinutes tza now)) in
      let seconds := padStart 2 "0" (toString (getSeconds tza now)) in
      let ampm := if geZ hours 12 then "PM" else "AM" in
      let hours := let r := remZ hours 12 in
                   if truthy r then r else ofZ 12 in
      Some (toString hours ++ ":" ++ minutes ++ ":" ++ seconds ++ " " ++ ampm)
  end.

End Clock.


(** The overlay of a state. *)
Definition overlayOf (s : State) : option bool := loadingOverlay (page s).

(** The two caches of a state. *)
Definition cachesOf (s : State) : JSMap.Map * JSMap.Map :=
  (times s, types s).

(** The hour of a twelve-hour clock and its half of the day. *)
Definition hour12 (h : Z) : Z := if h mod 12 =? 0 then 12 else h mod 12.

Definition period (h : Z) : string := if 12 <=? h then "PM" else "AM".

(** The text and the value of an option. *)
Definition optionLabel (o : selectOption) : string * string :=
  (optText o, optValue o).

(** The option [customTypes.updateTypeDropdown] makes for a custom type. *)
Definition customOption (e : string * string) : string * string :=
  ("Custom: " ++ fst e, "custom:" ++ fst e).

Definition isBuiltIn (o : selectOption) : bool :=
  negb (startsWith (optValue o) "custom:").

(** A string without a line break. *)
Definition lineSafe (t : string) : bool :=
  (negb (contains LF t) && negb (contains CR t))%bool.

(** [a] does not occur after [b]; both dates are valid. *)
Definition occursNoLater (a b : item) : Prop :=
  match scheduleTime a, scheduleTime b with
  | TV x, TV y => x <= y
  | _, _ => False
  end.

(** The binding a key has after the entries [es] are written in order: the
    last one. *)
Definition lastBinding (k : string) (es : list (string * string))
  : option string :=
  JSMap.get k (rev es).

(** A response to [/get_current_schedule] that [refreshState] acts on. *)
Definition snapshotOf (tms cts : list (string * string)) : fetched :=
  Responded true
    (Normal (mkBody None (Some "success") (Some tms) (Some cts))).

(** A response that [refreshState] ignores: no response, a status other
    than [ok], an unreadable body, or a body whose [status] is not
    ["success"]. *)
Definition unusable (r : fetched) : Prop :=
  match r with
  | Responded true (Normal data) => b_status data <> Some "success"
  | _ => True
  end.


(** * Properties *)

(** ** Numbers and dates *)

Section DateFacts.

Lemma pow10_O : pow10 0 = 1.
Proof. reflexivity. Qed.

Lemma truncate_integer (z : Z) : truncate z 0 = z.
Proof. unfold truncate. rewrite pow10_O. apply Z.quot_1_r. Qed.

Lemma MakeTime_integers (h m : Z) :
  MakeTime (ofZ h) (ofZ m) (ofZ 0) (ofZ 0)
  = Some (h * msPerHour + m * msPerMinute).
Proof.
  unfold MakeTime, ofZ, ToIntegerOrInfinity.
  rewrite !truncate_integer. f_equal. lia.
Qed.

Lemma TimeClip_inside (v : Z) :
  Z.abs v <= 8640000000000000 -> TimeClip (Some v) = TV v.
Proof.
  intro H. unfold TimeClip.
  destruct (Z.gtb_spec (Z.abs v) 8640000000000000); [lia | reflexivity].
Qed.

(** Today at [h:m] lies within a day of [now], whatever the offset. *)
Lemma todayAt_near (tza now h m : Z) :
  0 <= h <= 23 -> 0 <= m <= 59 ->
  now - msPerDay < todayAt tza now h m < now + msPerDay.
Proof.
  intros Hh Hm.
  unfold todayAt, localInstant, Day, LocalTime, msPerDay, msPerHour,
    msPerMinute, msPerSecond.
  pose proof (Z.div_mod (now + tza) 86400000 ltac:(lia)) as E.
  pose proof (Z.mod_pos_bound (now + tza) 86400000 ltac:(lia)) as B.
  lia.
Qed.

Lemma setHours_timeKey (tza now h m : Z) :
  inRange now -> 0 <= h <= 23 -> 0 <= m <= 59 ->
  setHours tza (TV now) (Some (ofZ h)) (Some (ofZ m)) (Some (ofZ 0))
    (Some (ofZ 0))
  = TV (todayAt tza now h m).
Proof.
  intros R Hh Hm.
  pose proof (todayAt_near tza now h m Hh Hm) as N.
  unfold setHours, ToNumber. rewrite MakeTime_integers. unfold MakeDate.
  replace (UTC tza _) with (todayAt tza now h m)
    by (unfold UTC, todayAt, localInstant, msPerSecond; lia).
  apply TimeClip_inside.
  unfold inRange, msPerDay in *. lia.
Qed.

(** [setDate(getDate() + 1)] moves a date one day ahead. *)
Lemma setDate_next (tza t : Z) :
  Z.abs (t + msPerDay) <= 8640000000000000 ->
  setDate tza (TV t) (addOne (getDate tza (TV t))) = TV (t + msPerDay).
Proof.
  intro R.
  unfold setDate, getDate, addOne, ofZ, MakeDayInMonthOf,
    ToIntegerOrInfinity, MakeDate.
  rewrite truncate_integer.
  replace (UTC tza _) with (t + msPerDay).
  - apply TimeClip_inside. exact R.
  - unfold UTC, TimeWithinDay, Day, LocalTime, msPerDay.
    pose proof (Z.div_mod (t + tza) 86400000 ltac:(lia)) as E.
    lia.
Qed.

Lemma occurrence_timeKey (tza now h m : Z) :
  inRange now -> 0 <= h <= 23 -> 0 <= m <= 59 ->
  occurrence tza now (ofZ h) (Some (ofZ m))
  = TV (nextOccurrence tza now h m).
Proof.
  intros R Hh Hm.
  pose proof (todayAt_near tza now h m Hh Hm) as N.
  unfold occurrence, nextOccurrence.
  rewrite setHours_timeKey by assumption.
  unfold JSDate.lt.
  destruct (Z.ltb_spec (todayAt tza now h m) now) as [L | L].
  - apply setDate_next. unfold inRange, msPerDay in *. lia.
  - reflexivity.
Qed.

Lemma roundQuotient_ms (d : Z) :
  roundQuotient (ofZ d) 1000 60 = ofZ (roundedMinutes d).
Proof.
  unfold roundQuotient, ofZ, roundedMinutes. rewrite pow10_O. f_equal.
  replace (2 * d + 1 * 1000 * 60) with (2 * (d + 30000)) by lia.
  replace (2 * (1 * 1000 * 60)) with (2 * 60000) by lia.
  apply Z.div_mul_cancel_l; lia.
Qed.

End DateFacts.

(** ** Strings *)

Section StringFacts.

Lemma append_assoc (a b c : string) : (a ++ b) ++ c = a ++ (b ++ c).
Proof. induction a as [| x a IH]; simpl; [reflexivity | now rewrite IH]. Qed.

Lemma append_nil_r (a : string) : a ++ "" = a.
Proof. induction a as [| x a IH]; simpl; [reflexivity | now rewrite IH]. Qed.

Lemma contains_cons (c x : ascii) (s : string) :
  contains c (String x s) = (Ascii.eqb c x || contains c s)%bool.
Proof. reflexivity. Qed.

Lemma contains_app (c : ascii) (a b : string) :
  contains c (a ++ b) = (contains c a || contains c b)%bool.
Proof.
  induction a as [| x a IH]; [reflexivity |].
  simpl append. rewrite !contains_cons, IH. now rewrite orb_assoc.
Qed.

Lemma split_not_nil (sep : ascii) (s : string) : split sep s <> [].
Proof.
  induction s as [| c r IH]; simpl; [discriminate |].
  destruct (Ascii.eqb c sep); [discriminate |].
  destruct (split sep r); [contradiction | discriminate].
Qed.

(** Splitting stops at the first separator. *)
Lemma split_app_sep (sep : ascii) (a b : string) :
  contains sep a = false ->
  split sep (a ++ String sep b) = a :: split sep b.
Proof.
  induction a as [| x a IH]; intro H.
  - simpl. now rewrite Ascii.eqb_refl.
  - rewrite contains_cons in H. apply orb_false_iff in H as [Hx Ha].
    simpl. rewrite Ascii.eqb_sym, Hx, (IH Ha). reflexivity.
Qed.

Lemma split_no_sep (sep : ascii) (a : string) :
  contains sep a = false -> split sep a = [a].
Proof.
  induction a as [| x a IH]; intro H; [reflexivity |].
  rewrite contains_cons in H. apply orb_false_iff in H as [Hx Ha].
  simpl. rewrite Ascii.eqb_sym, Hx, (IH Ha). reflexivity.
Qed.

Lemma split_join (sep : ascii) (l : list string) :
  l <> [] -> Forall (fun a => contains sep a = false) l ->
  split sep (join (String sep "") l) = l.
Proof.
  induction l as [| a l IH]; intros Hne Hall; [contradiction |].
  inversion Hall as [| ? ? Ha Hl]; subst.
  destruct l as [| b l].
  - simpl. now apply split_no_sep.
  - change (join (String sep "") (a :: b :: l))
      with (a ++ String sep "" ++ join (String sep "") (b :: l)).
    change (String sep "" ++ join (String sep "") (b :: l))
      with (String sep (join (String sep "") (b :: l))).
    rewrite (split_app_sep _ _ _ Ha), IH;
      [reflexivity | discriminate | exact Hl].
Qed.

Lemma trimStart_length (s : string) :
  (String.length (trimStart s) <= String.length s)%nat.
Proof.
  induction s as [| c r IH]; simpl; [lia |].
  destruct (is_ws c); simpl; lia.
Qed.

Lemma trimEnd_length (s : string) :
  (String.length (trimEnd s) <= String.length s)%nat.
Proof.
  induction s as [| c r IH]; simpl; [lia |].
  destruct (is_ws c && isEmpty (trimEnd r))%bool; simpl; lia.
Qed.

(** A trimmed string is empty or starts with a character that is not
    white space, and trimming its end changes nothing. *)
Lemma trimmed_inv (s : string) :
  trim s = s ->
  trimEnd s = s /\ (s = "" \/ exists c r, s = String c r /\ is_ws c = false).
Proof.
  intro H. destruct s as [| c r]; [split; [reflexivity | now left] |].
  unfold trim in H. simpl trimStart in H.
  destruct (is_ws c) eqn:Ec.
  - exfalso.
    pose proof (trimEnd_length (trimStart r)) as L1.
    pose proof (trimStart_length r) as L2.
    rewrite H in L1. simpl in L1. lia.
  - split; [exact H | right; now exists c, r].
Qed.

Lemma trimEnd_app_space (s : string) : trimEnd (s ++ " ") = trimEnd s.
Proof.
  induction s as [| c r IH]; [reflexivity |].
  simpl. now rewrite IH.
Qed.

Lemma trimEnd_nonempty (c : ascii) (r : string) :
  is_ws c = false -> trimEnd (String c r) = String c (trimEnd r).
Proof. intro H. simpl. now rewrite H. Qed.

Lemma trim_app_space (s : string) : trim s = s -> trim (s ++ " ") = s.
Proof.
  intro H. destruct (trimmed_inv s H) as [He [-> | (c & r & -> & Hc)]].
  - reflexivity.
  - unfold trim. simpl append. simpl trimStart. rewrite Hc.
    change (String c (r ++ " ")) with (String c r ++ " ").
    now rewrite trimEnd_app_space.
Qed.

Lemma trim_space_app (s : string) : trim (" " ++ s) = trim s.
Proof. reflexivity. Qed.

Lemma normalizeNewlines_id (s : string) :
  contains CR s = false -> normalizeNewlines s = s.
Proof.
  induction s as [| c r IH]; intro H; [reflexivity |].
  rewrite contains_cons in H. apply orb_false_iff in H as [Hc Hr].
  simpl. rewrite Ascii.eqb_sym, Hc, (IH Hr). reflexivity.
Qed.

End StringFacts.

(** ** Time keys *)

Section TimeKeyFacts.

Lemma isDigit_char (c : ascii) :
  isDigit c = true ->
  is_ws c = false /\ Ascii.eqb c "=" = false /\ Ascii.eqb c ":" = false
  /\ Ascii.eqb c LF = false /\ Ascii.eqb c CR = false
  /\ 0 <= digitOf c <= 9 /\ digitChar (digitOf c) = c.
Proof.
  destruct c as [[] [] [] [] [] [] [] []]; intro H;
    try discriminate H; vm_compute; intuition congruence.
Qed.

Lemma digitChar_digit (d : Z) :
  0 <= d <= 9 -> isDigit (digitChar d) = true /\ digitOf (digitChar d) = d.
Proof.
  intro H.
  assert (E : d = 0 \/ d = 1 \/ d = 2 \/ d = 3 \/ d = 4 \/ d = 5 \/ d = 6
              \/ d = 7 \/ d = 8 \/ d = 9) by lia.
  repeat (destruct E as [-> | E]; [now vm_compute |]). subst. now vm_compute.
Qed.

(** The hour or minute field of a key converts to its number. *)
Lemma Number_digits (a b : ascii) :
  isDigit a = true -> isDigit b = true ->
  Number (String a (String b "")) = ofZ (10 * digitOf a + digitOf b).
Proof.
  intros Ha Hb.
  destruct (isDigit_char a Ha) as (_ & _ & _ & _ & _ & Ra & Ea).
  destruct (isDigit_char b Hb) as (_ & _ & _ & _ & _ & Rb & Eb).
  rewrite <- Ea at 1. rewrite <- Eb at 1.
  remember (digitOf a) as x eqn:Dx. remember (digitOf b) as y eqn:Dy.
  clear Dx Dy Ea Eb Ha Hb a b.
  rename Ra into Rx, Rb into Ry.
  assert (Ex : x = 0 \/ x = 1 \/ x = 2 \/ x = 3 \/ x = 4 \/ x = 5 \/ x = 6
              \/ x = 7 \/ x = 8 \/ x = 9) by lia.
  assert (Ey : y = 0 \/ y = 1 \/ y = 2 \/ y = 3 \/ y = 4 \/ y = 5 \/ y = 6
              \/ y = 7 \/ y = 8 \/ y = 9) by lia.
  clear Rx Ry.
  repeat (destruct Ex as [-> | Ex]);
    repeat (destruct Ey as [-> | Ey]); subst; reflexivity.
Qed.

(** A canonical key taken apart. *)
Lemma isTimeKey_inv (k : string) :
  isTimeKey k = true ->
  exists h1 h2 m1 m2,
    k = String h1 (String h2 (String ":" (String m1 (String m2 ""))))
    /\ isDigit h1 = true /\ isDigit h2 = true
    /\ isDigit m1 = true /\ isDigit m2 = true
    /\ 10 * digitOf h1 + digitOf h2 <= 23
    /\ 10 * digitOf m1 + digitOf m2 <= 59.
Proof.
  intro H.
  destruct k as [| h1 [| h2 [| c [| m1 [| m2 [| ? ?]]]]]];
    try discriminate H.
  unfold isTimeKey in H.
  apply andb_true_iff in H as [H M59]. apply andb_true_iff in H as [H H23].
  apply andb_true_iff in H as [H D4]. apply andb_true_iff in H as [H D3].
  apply andb_true_iff in H as [H Hc]. apply andb_true_iff in H as [D1 D2].
  apply Ascii.eqb_eq in Hc. subst c.
  exists h1, h2, m1, m2.
  repeat split; try assumption; now apply Z.leb_le.
Qed.

Lemma timeKey_isTimeKey (h m : Z) :
  0 <= h <= 23 -> 0 <= m <= 59 -> isTimeKey (timeKey h m) = true.
Proof.
  intros Hh Hm. unfold timeKey, twoDigits. simpl append.
  assert (B1 : 0 <= h / 10 <= 9) by
    (split; [apply Z.div_pos; lia | apply Z.div_le_upper_bound; lia]).
  assert (B2 : 0 <= m / 10 <= 9) by
    (split; [apply Z.div_pos; lia | apply Z.div_le_upper_bound; lia]).
  pose proof (Z.mod_pos_bound h 10 ltac:(lia)) as B3.
  pose proof (Z.mod_pos_bound m 10 ltac:(lia)) as B4.
  destruct (digitChar_digit (h / 10) B1) as [D1 V1].
  destruct (digitChar_digit (h mod 10) ltac:(lia)) as [D2 V2].
  destruct (digitChar_digit (m / 10) B2) as [D3 V3].
  destruct (digitChar_digit (m mod 10) ltac:(lia)) as [D4 V4].
  unfold isTimeKey.
  rewrite D1, D2, D3, D4, V1, V2, V3, V4, Ascii.eqb_refl. cbn [andb].
  pose proof (Z.div_mod h 10 ltac:(lia)).
  pose proof (Z.div_mod m 10 ltac:(lia)).
  apply andb_true_iff; split; apply Z.leb_le; lia.
Qed.

(** What the parser needs of a canonical key. *)
Lemma isTimeKey_plain (k : string) :
  isTimeKey k = true ->
  contains "=" k = false /\ contains LF k = false /\ contains CR k = false
  /\ trim k = k /\ k <> "" /\ String.length k = 5%nat.
Proof.
  intro H.
  destruct (isTimeKey_inv k H)
    as (h1 & h2 & m1 & m2 & -> & D1 & D2 & D3 & D4 & _ & _).
  destruct (isDigit_char h1 D1) as (W1 & Q1 & _ & L1 & C1 & _).
  destruct (isDigit_char h2 D2) as (W2 & Q2 & _ & L2 & C2 & _).
  destruct (isDigit_char m1 D3) as (W3 & Q3 & _ & L3 & C3 & _).
  destruct (isDigit_char m2 D4) as (W4 & Q4 & _ & L4 & C4 & _).
  rewrite !contains_cons.
  rewrite (Ascii.eqb_sym "="%char h1), (Ascii.eqb_sym "="%char h2),
    (Ascii.eqb_sym "="%char m1), (Ascii.eqb_sym "="%char m2),
    (Ascii.eqb_sym LF h1), (Ascii.eqb_sym LF h2), (Ascii.eqb_sym LF m1),
    (Ascii.eqb_sym LF m2), (Ascii.eqb_sym CR h1), (Ascii.eqb_sym CR h2),
    (Ascii.eqb_sym CR m1), (Ascii.eqb_sym CR m2).
  rewrite Q1, Q2, Q3, Q4, L1, L2, L3, L4, C1, C2, C3, C4.
  repeat split; try reflexivity; try discriminate.
  unfold trim. simpl trimStart. rewrite W1. simpl. now rewrite W1, W2, W3, W4.
Qed.

(** The two numeric fields of the key of hour [h] and minute [m]. *)
Lemma timeKey_fields (h m : Z) :
  0 <= h <= 23 -> 0 <= m <= 59 ->
  map Number (split ":" (timeKey h m)) = [ofZ h; ofZ m].
Proof.
  intros Hh Hm.
  pose proof (timeKey_isTimeKey h m Hh Hm) as K.
  unfold timeKey, twoDigits in *. simpl append in *.
  assert (B1 : 0 <= h / 10 <= 9) by
    (split; [apply Z.div_pos; lia | apply Z.div_le_upper_bound; lia]).
  assert (B2 : 0 <= m / 10 <= 9) by
    (split; [apply Z.div_pos; lia | apply Z.div_le_upper_bound; lia]).
  pose proof (Z.mod_pos_bound h 10 ltac:(lia)) as B3.
  pose proof (Z.mod_pos_bound m 10 ltac:(lia)) as B4.
  destruct (digitChar_digit (h / 10) B1) as [D1 V1].
  destruct (digitChar_digit (h mod 10) ltac:(lia)) as [D2 V2].
  destruct (digitChar_digit (m / 10) B2) as [D3 V3].
  destruct (digitChar_digit (m mod 10) ltac:(lia)) as [D4 V4].
  destruct (isDigit_char _ D1) as (_ & _ & N1 & _).
  destruct (isDigit_char _ D2) as (_ & _ & N2 & _).
  destruct (isDigit_char _ D3) as (_ & _ & N3 & _).
  destruct (isDigit_char _ D4) as (_ & _ & N4 & _).
  cbn [split]. rewrite N1, N2, N3, N4. cbn [Ascii.eqb Bool.eqb split map].
  rewrite (Number_digits _ _ D1 D2), (Number_digits _ _ D3 D4).
  rewrite V1, V2, V3, V4.
  pose proof (Z.div_mod h 10 ltac:(lia)).
  pose proof (Z.div_mod m 10 ltac:(lia)).
  repeat f_equal; lia.
Qed.

End TimeKeyFacts.

(** ** The projector on one line *)

Section Projector.

Lemma entryLine_split (k t : string) :
  scheduleEditor.entryLine (k, t) = (k ++ " ") ++ String "=" (" " ++ t).
Proof.
  unfold scheduleEditor.entryLine. simpl fst. simpl snd.
  now rewrite append_assoc.
Qed.

(** The time field of a serialized entry is its key. *)
Lemma parseLine_entry (k t : string) :
  contains "=" k = false -> trim k = k ->
  parseLine (scheduleEditor.entryLine (k, t))
  = (k, nth_error (map trim (split "=" (" " ++ t))) 0).
Proof.
  intros Hk Ht. unfold parseLine. rewrite entryLine_split.
  rewrite split_app_sep by (rewrite contains_app, Hk; reflexivity).
  cbn [map nth_error]. now rewrite (trim_app_space k Ht).
Qed.

(** A plain token is read back unchanged. *)
Lemma parseLine_plain (k t : string) :
  contains "=" k = false -> trim k = k -> plainToken t = true ->
  parseLine (scheduleEditor.entryLine (k, t)) = (k, Some t).
Proof.
  intros Hk Ht Hp. rewrite (parseLine_entry k t Hk Ht). f_equal.
  unfold plainToken in Hp.
  apply andb_true_iff in Hp as [Hp Htrim].
  apply andb_true_iff in Hp as [Hp _].
  apply andb_true_iff in Hp as [Heq _].
  apply negb_true_iff in Heq. apply String.eqb_eq in Htrim.
  rewrite split_no_sep by (rewrite contains_app, Heq; reflexivity).
  cbn [map nth_error]. now rewrite trim_space_app, Htrim.
Qed.

Lemma leZ_integer (z k : Z) : leZ (ofZ z) k = (z <=? k).
Proof. unfold leZ, ofZ. rewrite pow10_O. now rewrite Z.mul_1_r. Qed.

(** The projection of the entry of hour [h] and minute [m]: the next
    occurrence, the rounded distance to it, and the window test. *)
Lemma projectLine_entry (tza now h m : Z) (ty : string) :
  inRange now -> 0 <= h <= 23 -> 0 <= m <= 59 ->
  let line := scheduleEditor.entryLine (timeKey h m, ty) in
  let occursAt := nextOccurrence tza now h m in
  let mins := roundedMinutes (occursAt - now) in
  projectLine tza now line
  = if mins <=? 60
    then Some (mkItem (timeKey h m) (snd (parseLine line)) (ofZ mins)
                 (TV occursAt))
    else None.
Proof.
  intros R Hh Hm line occursAt mins.
  destruct (isTimeKey_plain _ (timeKey_isTimeKey h m Hh Hm))
    as (Heq & _ & _ & Htrim & _).
  unfold projectLine. subst line.
  rewrite (parseLine_entry _ ty Heq Htrim). cbn [snd].
  rewrite (timeKey_fields h m Hh Hm). cbn [nth_error].
  rewrite (occurrence_timeKey tza now h m R Hh Hm).
  cbn [minus]. rewrite roundQuotient_ms, leZ_integer.
  reflexivity.
Qed.

(** The window of distances that round to at most sixty minutes. *)
Lemma roundedMinutes_le (d k : Z) :
  roundedMinutes d <= k <-> d < 60000 * k + 30000.
Proof.
  unfold roundedMinutes.
  pose proof (Z.div_mod (d + 30000) 60000 ltac:(lia)).
  pose proof (Z.mod_pos_bound (d + 30000) 60000 ltac:(lia)).
  lia.
Qed.

Lemma roundedMinutes_exact (k : Z) : roundedMinutes (60000 * k) = k.
Proof.
  unfold roundedMinutes.
  pose proof (Z.div_mod (60000 * k + 30000) 60000 ltac:(lia)).
  pose proof (Z.mod_pos_bound (60000 * k + 30000) 60000 ltac:(lia)).
  lia.
Qed.

(** The next occurrence is never before [now] and less than a day away. *)
Lemma nextOccurrence_bounds (tza now h m : Z) :
  0 <= h <= 23 -> 0 <= m <= 59 ->
  now <= nextOccurrence tza now h m < now + msPerDay.
Proof.
  intros Hh Hm. pose proof (todayAt_near tza now h m Hh Hm).
  unfold nextOccurrence.
  destruct (Z.ltb_spec (todayAt tza now h m) now); lia.
Qed.


End Projector.

(** ** Sorting and filtering *)

Section SortFacts.
Context {A : Type}.
Variable le : A -> A -> bool.

Lemma insert_perm (x : A) (l : list A) :
  Permutation (JSArray.insert le x l) (x :: l).
Proof.
  induction l as [| y ys IH]; simpl; [apply Permutation_refl |].
  destruct (le x y); [apply Permutation_refl |].
  eapply perm_trans; [apply perm_skip, IH | apply perm_swap].
Qed.

Lemma sort_perm (l : list A) : Permutation (JSArray.sort le l) l.
Proof.
  induction l as [| x xs IH]; simpl; [apply perm_nil |].
  eapply perm_trans; [apply insert_perm | apply perm_skip, IH].
Qed.

(** With a total and transitive [le] the result is sorted. *)
Hypothesis le_total : forall a b, le a b = true \/ le b a = true.
Hypothesis le_trans :
  forall a b c, le a b = true -> le b c = true -> le a c = true.

Lemma insert_sorted (x : A) (l : list A) :
  StronglySorted (fun a b => le a b = true) l ->
  StronglySorted (fun a b => le a b = true) (JSArray.insert le x l).
Proof.
  induction l as [| y ys IH]; intro S; simpl.
  - constructor; [constructor | constructor].
  - inversion S as [| ? ? Sys Fy]; subst.
    destruct (le x y) eqn:E.
    + constructor; [exact S |].
      constructor; [exact E |].
      eapply Forall_impl; [| exact Fy].
      intros a Ha. now apply (le_trans x y a).
    + constructor; [now apply IH |].
      destruct (le_total x y) as [C | C]; [congruence |].
      eapply Permutation_Forall;
        [apply Permutation_sym, insert_perm |].
      constructor; assumption.
Qed.

Lemma sort_sorted (l : list A) :
  StronglySorted (fun a b => le a b = true) (JSArray.sort le l).
Proof.
  induction l as [| x xs IH]; simpl; [constructor |].
  now apply insert_sorted.
Qed.

End SortFacts.

Lemma In_retained (l : list (option item)) (it : item) :
  In it (retained l) <-> In (Some it) l.
Proof.
  induction l as [| [x |] rest IH]; simpl.
  - tauto.
  - rewrite IH. split; intros [H | H]; auto; left; congruence.
  - rewrite IH. split; [auto | intros [H | H]; [discriminate | exact H]].
Qed.

(** The items of [upcoming] are the items the callback returned for the
    lines that are not blank. *)
Lemma In_upcomingOf (tza now : Z) (value : string) (it : item) :
  In it (upcomingOf tza now value)
  <-> exists line,
        In line (nonBlankLines value) /\ projectLine tza now line = Some it.
Proof.
  unfold upcomingOf. split.
  - intro H.
    apply (Permutation_in _ (sort_perm byScheduleTime _)) in H.
    apply In_retained, in_map_iff in H as (line & E & L). eauto.
  - intros (line & L & E).
    apply (Permutation_in _ (Permutation_sym (sort_perm byScheduleTime _))).
    apply In_retained, in_map_iff. eauto.
Qed.

(** ** The roll-over rule and the window *)



(** C2. The projection keeps exactly the entries whose rounded distance is
    at most sixty minutes: the items of [upcoming] are the items the
    callback returned, the callback returns an item exactly when the rounded
    number of minutes is at most 60, an entry exactly 60 minutes ahead is
    kept, one 61 minutes ahead is dropped, and one that falls on [now]
    itself is kept with zero minutes. *)
Theorem C2_window :
  (forall tza now value it,
      In it (upcomingOf tza now value)
      <-> exists line,
            In line (nonBlankLines value)
            /\ projectLine tza now line = Some it)
  /\ (forall tza now h m ty,
         inRange now -> 0 <= h <= 23 -> 0 <= m <= 59 ->
         let line := scheduleEditor.entryLine (timeKey h m, ty) in
         let occursAt := nextOccurrence tza now h m in
         let mins := roundedMinutes (occursAt - now) in
         (projectLine tza now line <> None <-> mins <= 60)
         /\ (forall it, projectLine tza now line = Some it ->
                        minutesUntil it = ofZ mins
                        /\ scheduleTime it = TV occursAt)
         /\ (occursAt - now = 60 * msPerMinute ->
             exists it, projectLine tza now line = Some it
                        /\ minutesUntil it = ofZ 60)
         /\ (occursAt - now = 61 * msPerMinute ->
             projectLine tza now line = None)
         /\ (occursAt = now ->
             exists it, projectLine tza now line = Some it
                        /\ minutesUntil it = ofZ 0)).
Proof.
  split; [exact In_upcomingOf |].
  intros tza now h m ty R Hh Hm line occursAt mins.
  pose proof (projectLine_entry tza now h m ty R Hh Hm) as P.
  cbv zeta in P. fold line occursAt mins in P.
  repeat split.
  - intro H. destruct (Z.leb_spec mins 60) as [L | L]; [exact L |].
    rewrite P in H. now contradiction H.
  - intro L. rewrite P. apply Z.leb_le in L. rewrite L. discriminate.
  - rewrite P in H. destruct (mins <=? 60); [| discriminate].
    injection H as <-. reflexivity.
  - rewrite P in H. destruct (mins <=? 60); [| discriminate].
    injection H as <-. reflexivity.
  - intro E. assert (M : mins = 60).
    { unfold mins. rewrite E. unfold msPerMinute.
      replace (60 * 60000) with (60000 * 60) by lia.
      apply roundedMinutes_exact. }
    rewrite P, M. cbn. eexists. split; reflexivity.
  - intro E. assert (M : mins = 61).
    { unfold mins. rewrite E. unfold msPerMinute.
      replace (61 * 60000) with (60000 * 61) by lia.
      apply roundedMinutes_exact. }
    rewrite P, M. reflexivity.
  - intro E. assert (M : mins = 0).
    { unfold mins. rewrite E. replace (now - now) with (60000 * 0) by lia.
      apply roundedMinutes_exact. }
    rewrite P, M. cbn. eexists. split; reflexivity.
Qed.

Lemma C2_window_witness :
  projectLine 0 (localInstant 0 20760 9 0 0 0)
    (scheduleEditor.entryLine (timeKey 10 0, "hour"))
  <> None
  /\ projectLine 0 (localInstant 0 20760 8 59 0 0)
       (scheduleEditor.entryLine (timeKey 10 0, "hour"))
     = None.
Proof.
  split.
  - apply (proj2 C2_window 0 (localInstant 0 20760 9 0 0 0) 10 0 "hour").
    + unfold inRange. vm_compute. discriminate.
    + lia.
    + lia.
    + vm_compute. discriminate.
  - apply (proj2 C2_window 0 (localInstant 0 20760 8 59 0 0) 10 0 "hour").
    + unfold inRange. vm_compute. discriminate.
    + lia.
    + lia.
    + vm_compute. reflexivity.
Defined.




(** ** The order of strings *)

Section StringOrder.

Lemma ascii_compare_trans (a b c : ascii) (r : comparison) :
  Ascii.compare a b = r -> Ascii.compare b c = r -> Ascii.compare a c = r.
Proof.
  unfold Ascii.compare. intros H1 H2. destruct r.
  - rewrite N.compare_eq_iff in *. congruence.
  - rewrite N.compare_lt_iff in *. lia.
  - rewrite N.compare_gt_iff in *. lia.
Qed.

Lemma string_compare_lt_trans (a b c : string) :
  String.compare a b = Lt -> String.compare b c = Lt ->
  String.compare a c = Lt.
Proof.
  revert b c. induction a as [| x a IH]; intros [| y b] [| z c]; simpl;
    try congruence.
  destruct (Ascii.compare x y) eqn:E1; destruct (Ascii.compare y z) eqn:E2;
    try congruence; intros H1 H2.
  - rewrite (ascii_compare_trans x y z Eq E1 E2). now apply (IH b c).
  - apply Ascii.compare_eq_iff in E1. subst y. now rewrite E2.
  - apply Ascii.compare_eq_iff in E2. subst z. now rewrite E1.
  - now rewrite (ascii_compare_trans x y z Lt E1 E2).
Qed.

Lemma string_leb_lt (a b : string) :
  String.leb a b = true <-> String.compare a b = Lt \/ a = b.
Proof.
  unfold String.leb. split.
  - destruct (String.compare a b) eqn:E; intro H.
    + right. now apply String.compare_eq_iff.
    + now left.
    + discriminate.
  - intros [H | ->].
    + now rewrite H.
    + destruct (String.compare b b) eqn:E; try reflexivity.
      pose proof (String.compare_antisym b b) as A. rewrite E in A.
      discriminate A.
Qed.

Lemma string_leb_trans (a b c : string) :
  String.leb a b = true -> String.leb b c = true -> String.leb a c = true.
Proof.
  rewrite !string_leb_lt. intros [H1 | ->] [H2 | ->]; auto.
  left. now apply (string_compare_lt_trans a b c).
Qed.

(** Two different strings of one length are ordered by themselves, whatever
    is appended to them. *)
Lemma string_compare_app (a b x y : string) :
  String.length a = String.length b -> a <> b ->
  String.compare (a ++ x) (b ++ y) = String.compare a b.
Proof.
  revert b. induction a as [| c a IH]; intros [| d b] L N; simpl in *;
    try discriminate; try congruence.
  destruct (Ascii.compare c d) eqn:E; try reflexivity.
  apply Ascii.compare_eq_iff in E. subst d.
  apply IH; [congruence | intro; subst; now apply N].
Qed.

Lemma defaultLe_total (a b : string * string) :
  JSArray.defaultLe a b = true \/ JSArray.defaultLe b a = true.
Proof. apply String.leb_total. Qed.

Lemma defaultLe_trans (a b c : string * string) :
  JSArray.defaultLe a b = true -> JSArray.defaultLe b c = true ->
  JSArray.defaultLe a c = true.
Proof. apply string_leb_trans. Qed.

(** The default order on entries is the order of the keys when the keys
    differ and have one length. *)
Lemma defaultLe_keys (a b : string * string) :
  String.length (fst a) = String.length (fst b) -> fst a <> fst b ->
  JSArray.defaultLe a b = true -> keyLt a b.
Proof.
  intros L N H. unfold JSArray.defaultLe, JSArray.pairToString, String.leb in H.
  rewrite (string_compare_app _ _ _ _ L N) in H.
  unfold keyLt, String.ltb.
  destruct (String.compare (fst a) (fst b)) eqn:E; try reflexivity.
  - now apply String.compare_eq_iff in E.
  - discriminate.
Qed.

End StringOrder.

(** ** The cache *)

Section MapFacts.

Lemma set_keys (k v : string) (m : JSMap.Map) (x : string) :
  In x (JSMap.keys (JSMap.set k v m)) <-> x = k \/ In x (JSMap.keys m).
Proof.
  induction m as [| [k' v'] rest IH]; simpl.
  - intuition.
  - destruct (String.eqb_spec k k') as [-> | N]; simpl.
    + intuition.
    + rewrite IH. intuition.
Qed.

Lemma set_NoDup (k v : string) (m : JSMap.Map) :
  NoDup (JSMap.keys m) -> NoDup (JSMap.keys (JSMap.set k v m)).
Proof.
  induction m as [| [k' v'] rest IH]; simpl; intro H.
  - constructor; [intros [] | constructor].
  - inversion H as [| ? ? Hn Hr]; subst.
    destruct (String.eqb_spec k k') as [-> | N]; simpl.
    + now constructor.
    + constructor; [| now apply IH].
      intro I. apply set_keys in I as [-> | I]; [now apply N | now apply Hn].
Qed.

Lemma setAll_NoDup (ops : list (string * string)) (m : JSMap.Map) :
  NoDup (JSMap.keys m) -> NoDup (JSMap.keys (JSMap.setAll ops m)).
Proof.
  revert m. induction ops as [| [k v] ops IH]; intros m H; simpl.
  - exact H.
  - apply IH. now apply set_NoDup.
Qed.

Lemma setAll_keys (ops : list (string * string)) (m : JSMap.Map) (x : string) :
  In x (JSMap.keys (JSMap.setAll ops m)) ->
  In x (map fst ops) \/ In x (JSMap.keys m).
Proof.
  revert m. induction ops as [| [k v] ops IH]; intros m H; simpl in *.
  - now right.
  - apply IH in H as [H | H]; [now left; right |].
    apply set_keys in H as [-> | H]; [now left; left | now right].
Qed.

Lemma afterSets_NoDup (ops : list (string * string)) :
  NoDup (JSMap.keys (afterSets ops)).
Proof. apply setAll_NoDup. constructor. Qed.

Lemma get_set_same (k v : string) (m : JSMap.Map) :
  JSMap.get k (JSMap.set k v m) = Some v.
Proof.
  induction m as [| [k' v'] rest IH]; simpl.
  - now rewrite String.eqb_refl.
  - destruct (String.eqb_spec k k') as [-> | N]; simpl.
    + now rewrite String.eqb_refl.
    + apply String.eqb_neq in N. now rewrite N.
Qed.

(** A second write to a key replaces the first. *)
Lemma set_set (k a b : string) (m : JSMap.Map) :
  JSMap.set k b (JSMap.set k a m) = JSMap.set k b m.
Proof.
  induction m as [| [k' v'] rest IH]; simpl.
  - now rewrite String.eqb_refl.
  - destruct (String.eqb_spec k k') as [-> | N]; simpl.
    + now rewrite String.eqb_refl.
    + apply String.eqb_neq in N. now rewrite N, IH.
Qed.

Lemma filter_absent (t : string) (m : JSMap.Map) :
  ~ In t (JSMap.keys m) -> filter (hasKey t) m = [].
Proof.
  induction m as [| [k v] rest IH]; simpl; intro H; [reflexivity |].
  unfold hasKey at 1. simpl.
  destruct (String.eqb_spec k t) as [-> | N]; [exfalso; auto |].
  apply IH. auto.
Qed.

Lemma filter_set (t v : string) (m : JSMap.Map) :
  NoDup (JSMap.keys m) -> filter (hasKey t) (JSMap.set t v m) = [(t, v)].
Proof.
  induction m as [| [k' v'] rest IH]; simpl; intro H.
  - unfold hasKey. simpl. now rewrite String.eqb_refl.
  - inversion H as [| ? ? Hn Hr]; subst.
    destruct (String.eqb_spec t k') as [-> | N]; simpl.
    + unfold hasKey at 1. simpl. rewrite String.eqb_refl.
      now rewrite (filter_absent _ _ Hn).
    + unfold hasKey at 1. simpl.
      destruct (String.eqb_spec k' t) as [E | _]; [now subst |].
      now apply IH.
Qed.

Lemma filter_perm (f : string * string -> bool)
  (l l' : list (string * string)) :
  Permutation l l' -> Permutation (filter f l) (filter f l').
Proof.
  induction 1 as [| x l l' _ IH | x y l | l l' l'' _ IH1 _ IH2]; simpl.
  - constructor.
  - destruct (f x); [now constructor | exact IH].
  - destruct (f x), (f y); try apply Permutation_refl. apply perm_swap.
  - now apply perm_trans with (filter f l').
Qed.

End MapFacts.

(** C5. On a cache reached by any sequence of writes, [set(t, A)] followed by
    [set(t, B)] leaves one entry for [t], with type [B], in the cache and in
    the sorted list made from it. *)
Theorem C5_last_write_wins :
  forall (ops : list (string * string)) (t A B : string),
    let m := JSMap.set t B (JSMap.set t A (afterSets ops)) in
    JSMap.get t m = Some B
    /\ filter (fun e => String.eqb (fst e) t) (JSMap.entries m) = [(t, B)]
    /\ filter (fun e => String.eqb (fst e) t) (scheduleEditor.timeEntries m)
       = [(t, B)].
Proof.
  intros ops t A B m.
  assert (F : filter (hasKey t) m = [(t, B)]).
  { subst m. rewrite set_set. apply filter_set, afterSets_NoDup. }
  split; [apply get_set_same | split; [exact F |]].
  change (fun e : string * string => String.eqb (fst e) t) with (hasKey t).
  apply Permutation_length_1_inv. rewrite <- F.
  apply filter_perm, Permutation_sym, sort_perm.
Qed.

(** ** The schedule list *)

Section ScheduleList.

(** A canonical key has a minute field, so formatting it does not throw. *)
Lemma formatTime_timeKey (k : string) :
  isTimeKey k = true -> Utils.formatTime k = Normal (timeText k).
Proof.
  intro H. unfold timeText.
  destruct (Utils.formatTime k) eqn:E; [reflexivity | exfalso].
  destruct (isTimeKey_inv k H)
    as (h1 & h2 & m1 & m2 & -> & D1 & D2 & D3 & D4 & _ & _).
  destruct (isDigit_char _ D1) as (_ & _ & N1 & _).
  destruct (isDigit_char _ D2) as (_ & _ & N2 & _).
  destruct (isDigit_char _ D3) as (_ & _ & N3 & _).
  destruct (isDigit_char _ D4) as (_ & _ & N4 & _).
  unfold Utils.formatTime in E. cbn [split] in E.
  rewrite N1, N2, N3, N4 in E.
  cbn [Ascii.eqb Bool.eqb split map nth_error] in E.
  discriminate E.
Qed.

Lemma renderEntries_ok (es : list (string * string)) (html : string) :
  (forall e, In e es -> isTimeKey (fst e) = true) ->
  scheduleEditor.renderEntries html es
  = Normal
      (html ++
       String.concat ""
         (map (fun e => scheduleEditor.itemHtml (fst e) (snd e)
                          (timeText (fst e)) (labelText (typeLabel (snd e))))
            es)).
Proof.
  revert html. induction es as [| [k t] es IH]; intros html H.
  - simpl. now rewrite append_nil_r.
  - cbn [scheduleEditor.renderEntries].
    rewrite (formatTime_timeKey k (H (k, t) (or_introl eq_refl))).
    rewrite IH by (intros e I; apply H; now right).
    f_equal. rewrite append_assoc. f_equal.
    cbn [map fst snd]. destruct es as [| e es']; cbn [String.concat map].
    + now rewrite append_nil_r.
    + reflexivity.
Qed.

(** Entries sorted by the default comparator are in ascending order of
    their keys when the keys are distinct canonical keys. *)
Lemma sorted_by_key (es : list (string * string)) :
  StronglySorted (fun a b => JSArray.defaultLe a b = true) es ->
  NoDup (map fst es) ->
  (forall e, In e es -> isTimeKey (fst e) = true) ->
  StronglySorted keyLt es.
Proof.
  induction 1 as [| a l S IH F]; intros N K; [constructor |].
  inversion N as [| ? ? Na Nl]; subst.
  constructor.
  - apply IH; [exact Nl | intros e I; apply K; now right].
  - rewrite Forall_forall in *. intros b I.
    apply defaultLe_keys; [| | now apply F].
    + destruct (isTimeKey_plain _ (K a (or_introl eq_refl)))
        as (_ & _ & _ & _ & _ & La).
      destruct (isTimeKey_plain _ (K b (or_intror I)))
        as (_ & _ & _ & _ & _ & Lb).
      congruence.
    + intro E. apply Na. rewrite E. now apply in_map.
Qed.

End ScheduleList.

(** C4. After any sequence of writes of canonical keys, in any order, the
    entries the schedule list is made from are in ascending order of their
    keys, compared as strings, and both the markup of the list and the text
    of the serialization follow that order. *)
Theorem C4_sorted_list :
  forall (ops : list (string * string)) (s : State) (sl ta : string),
    (forall e, In e ops -> isTimeKey (fst e) = true) ->
    scheduleList (page s) = Some sl ->
    timesTextarea (page s) = Some ta ->
    let m := afterSets ops in
    let es := scheduleEditor.timeEntries m in
    StronglySorted keyLt es
    /\ Permutation es (JSMap.entries m)
    /\ scheduleEditor.updateScheduleList (withTimes m s)
       = (withPage
            (setTimesTextarea (join nl (map scheduleEditor.entryLine es))
               (setScheduleList (scheduleHtml es) (page s)))
            (withTimes m s), None).
Proof.
  intros ops s sl ta K Hsl Hta m es.
  assert (P : Permutation es (JSMap.entries m)) by apply sort_perm.
  assert (Kes : forall e, In e es -> isTimeKey (fst e) = true).
  { intros e I. apply (Permutation_in _ P) in I.
    assert (I' : In (fst e) (JSMap.keys m)) by now apply in_map.
    apply setAll_keys in I' as [I' | []].
    apply in_map_iff in I' as (e' & E & I'). rewrite <- E. now apply K. }
  split; [| split; [exact P |]].
  - apply sorted_by_key.
    + apply sort_sorted; [apply defaultLe_total | apply defaultLe_trans].
    + apply (Permutation_NoDup (Permutation_map fst (Permutation_sym P))).
      apply afterSets_NoDup.
    + exact Kes.
  - unfold scheduleEditor.updateScheduleList. cbn [page withTimes times].
    rewrite Hsl, Hta. fold m. fold es.
    destruct es as [| e es'] eqn:Ees.
    + reflexivity.
    + rewrite (renderEntries_ok _ "" Kes). reflexivity.
Qed.

Lemma C4_sorted_list_witness :
  StronglySorted keyLt
    (scheduleEditor.timeEntries
       (afterSets [("10:55", ":55"); ("09:00", "rules"); ("10:00", "hour")])).
Proof.
  apply (C4_sorted_list
           [("10:55", ":55"); ("09:00", "rules"); ("10:00", "hour")]
           (mkState [] [] blankPage) "" "").
  - intros e [<- | [<- | [<- | []]]]; reflexivity.
  - reflexivity.
  - reflexivity.
Defined.

(** ** Refresh and the view *)

Section ViewFacts.

Lemma view_ofView (s : State) : view (ofView (view s)) = view s.
Proof. destruct s as [tm ty []]. reflexivity. Qed.

Lemma respects_skip : respectsView skip.
Proof. intros s1 s2 H. now split. Qed.

Lemma respects_throw (e : exn) : respectsView (throw e).
Proof. intros s1 s2 H. now split. Qed.

Lemma respects_seq (a b : Eff) :
  respectsView a -> respectsView b -> respectsView (a ;; b).
Proof.
  intros Ha Hb s1 s2 H. unfold seq.
  destruct (Ha s1 s2 H) as [V E].
  destruct (a s1) as [t1 o1], (a s2) as [t2 o2]. cbn [fst snd] in *.
  subst o2. destruct o1; [now split | now apply Hb].
Qed.

Lemma respects_tryCatch (body : Eff) (handler : exn -> Eff) :
  respectsView body -> (forall e, respectsView (handler e)) ->
  respectsView (tryCatch body handler).
Proof.
  intros Hb Hh s1 s2 H. unfold tryCatch.
  destruct (Hb s1 s2 H) as [V E].
  destruct (body s1) as [t1 o1], (body s2) as [t2 o2]. cbn [fst snd] in *.
  subst o2. destruct o1; [now apply Hh | now split].
Qed.

Lemma respects_tryFinally (body final : Eff) :
  respectsView body -> respectsView final ->
  respectsView (tryFinally body final).
Proof.
  intros Hb Hf s1 s2 H. unfold tryFinally.
  destruct (Hb s1 s2 H) as [V E].
  destruct (body s1) as [t1 o1], (body s2) as [t2 o2]. cbn [fst snd] in *.
  subst o2. destruct (Hf t1 t2 V) as [V' E'].
  destruct (final t1) as [u1 p1], (final t2) as [u2 p2]. cbn [fst snd] in *.
  subst p2. destruct o1, p1; now split.
Qed.

(** A statement that leaves the view alone and never throws. *)
Lemma respects_outside (f : State -> State) :
  (forall s, view (f s) = view s) -> respectsView (modify f).
Proof.
  intros Hf s1 s2 H. unfold modify. cbn [fst snd].
  split; [now rewrite !Hf | reflexivity].
Qed.

Ltac take_views s1 s2 H :=
  destruct s1 as [tm1 ty1 [fl1 lo1 sl1 ta1 up1 cl1 ct1 nt1 nty1 nn1 ntt1]];
  destruct s2 as [tm2 ty2 [fl2 lo2 sl2 ta2 up2 cl2 ct2 nt2 nty2 nn2 ntt2]];
  unfold view in H; cbn [times types page scheduleList timesTextarea
                           upcomingList] in H;
  injection H as -> -> -> -> ->.

Lemma respects_showNotification (msg type : string) :
  respectsView (Utils.showNotification msg type).
Proof.
  apply respects_outside.
  intros [tm ty [[fl |] lo sl ta up cl ct nt nty nn ntt]]; reflexivity.
Qed.

Lemma respects_setLoading (b : bool) : respectsView (UI.setLoading b).
Proof.
  apply respects_outside.
  intros [tm ty [fl [lo |] sl ta up cl ct nt nty nn ntt]]; reflexivity.
Qed.

Lemma respects_updateTypesList : respectsView customTypes.updateTypesList.
Proof.
  apply respects_outside.
  intros [tm ty [fl lo sl ta up [cl |] [ct |] nt nty nn ntt]]; reflexivity.
Qed.

Lemma respects_updateTypeDropdown :
  respectsView customTypes.updateTypeDropdown.
Proof.
  apply respects_outside.
  intros [tm ty [fl lo sl ta up cl ct nt [nty |] nn ntt]]; reflexivity.
Qed.

Lemma respects_replaceTimes (o : option (list (string * string))) :
  respectsView (replaceTimes o).
Proof.
  intros s1 s2 H. take_views s1 s2 H. destruct o; now split.
Qed.

Lemma respects_replaceTypes (o : option (list (string * string))) :
  respectsView (replaceTypes o).
Proof.
  intros s1 s2 H. take_views s1 s2 H. destruct o; now split.
Qed.

Lemma respects_updateScheduleList :
  respectsView scheduleEditor.updateScheduleList.
Proof.
  intros s1 s2 H. take_views s1 s2 H.
  unfold scheduleEditor.updateScheduleList.
  cbn [page times scheduleList timesTextarea].
  destruct sl2, ta2; try (now split).
  destruct (scheduleEditor.timeEntries tm2) as [| e es]; [now split |].
  destruct (scheduleEditor.renderEntries "" (e :: es)); now split.
Qed.

Lemma respects_updateUpcoming (cd : option colors) (tza now : Z) :
  respectsView (updateUpcomingAnnouncements cd tza now).
Proof.
  intros s1 s2 H. take_views s1 s2 H.
  unfold updateUpcomingAnnouncements.
  cbn [page upcomingList timesTextarea].
  destruct up2, ta2; try (now split).
  destruct (upcomingOf tza now s0) as [| it l]; [now split |].
  destruct (upcoming.renderItems cd "" (it :: l)); now split.
Qed.

Lemma respects_refreshState (tza now : Z) (r : fetched) :
  respectsView (refreshState tza now r).
Proof.
  unfold refreshState.
  apply respects_tryCatch; [| intro; apply respects_skip].
  destruct r as [e | [|] [data | e]];
    try apply respects_skip; try apply respects_throw.
  destruct (b_status data) as [st |]; [| apply respects_skip].
  destruct (String.eqb st "success"); [| apply respects_skip].
  apply respects_seq; [apply respects_replaceTimes |].
  apply respects_seq; [apply respects_updateScheduleList |].
  apply respects_seq; [apply respects_replaceTypes |].
  apply respects_seq; [apply respects_updateTypesList |].
  apply respects_seq; [apply respects_updateTypeDropdown |].
  apply respects_updateUpcoming.
Qed.

Lemma respects_refreshSchedule (tza now : Z) (r : fetched) :
  respectsView (refreshSchedule tza now r).
Proof.
  unfold refreshSchedule, UI.showLoading, UI.hideLoading.
  apply respects_seq; [apply respects_setLoading |].
  apply respects_tryFinally; [| apply respects_setLoading].
  apply respects_tryCatch; [| intro; apply respects_showNotification].
  destruct (request r "Failed to refresh schedule") as [result | e];
    [| apply respects_throw].
  apply respects_seq; [apply respects_replaceTimes |].
  apply respects_seq; [apply respects_updateScheduleList |].
  apply respects_seq.
  - destruct (b_custom_types result); [| apply respects_skip].
    apply respects_seq; [apply respects_replaceTypes |].
    apply respects_seq; [apply respects_updateTypesList |].
    apply respects_updateTypeDropdown.
  - apply respects_seq; [apply respects_updateUpcoming |].
    apply respects_showNotification.
Qed.

(** Idempotence on the view follows from idempotence on the states that
    carry a view and nothing else. *)
Lemma idempotent_from_views (f : Eff) :
  respectsView f ->
  (forall v, view (fst (f (fst (f (ofView v))))) = view (fst (f (ofView v)))) ->
  forall s, view (fst (f (fst (f s)))) = view (fst (f s)).
Proof.
  intros R I s.
  destruct (R s (ofView (view s)) (eq_sym (view_ofView s))) as [V _].
  destruct (R _ _ V) as [V2 _].
  rewrite V2, V. apply I.
Qed.

End ViewFacts.

(** *** The statements on a state that carries only a view *)

Section OnViews.

Variables (tm ty : JSMap.Map) (sl ta up : option string).

Lemma replaceTimes_ofView (o : option (list (string * string))) :
  replaceTimes o (ofView (tm, ty, sl, ta, up))
  = match o with
    | Some es => (ofView (JSMap.setAll es [], ty, sl, ta, up), None)
    | None => (ofView ([], ty, sl, ta, up), Some TypeError_toObject)
    end.
Proof. destruct o; reflexivity. Qed.

Lemma replaceTypes_ofView (o : option (list (string * string))) :
  replaceTypes o (ofView (tm, ty, sl, ta, up))
  = match o with
    | Some es => (ofView (tm, JSMap.setAll es [], sl, ta, up), None)
    | None => (ofView (tm, [], sl, ta, up), Some TypeError_toObject)
    end.
Proof. destruct o; reflexivity. Qed.

Lemma updateTypesList_ofView :
  customTypes.updateTypesList (ofView (tm, ty, sl, ta, up))
  = (ofView (tm, ty, sl, ta, up), None).
Proof. reflexivity. Qed.

Lemma updateTypeDropdown_ofView :
  customTypes.updateTypeDropdown (ofView (tm, ty, sl, ta, up))
  = (ofView (tm, ty, sl, ta, up), None).
Proof. reflexivity. Qed.

Lemma showNotification_ofView (msg type : string) :
  Utils.showNotification msg type (ofView (tm, ty, sl, ta, up))
  = (ofView (tm, ty, sl, ta, up), None).
Proof. reflexivity. Qed.

Lemma setLoading_ofView (b : bool) :
  UI.setLoading b (ofView (tm, ty, sl, ta, up))
  = (ofView (tm, ty, sl, ta, up), None).
Proof. reflexivity. Qed.

Lemma updateScheduleList_ofView :
  scheduleEditor.updateScheduleList (ofView (tm, ty, sl, ta, up))
  = match sl, ta with
    | Some _, Some _ =>
        match scheduleEditor.timeEntries tm with
        | [] =>
            (ofView (tm, ty, Some scheduleEditor.emptyHtml,
                     Some (normalizeNewlines (scheduleEditor.serialize [])),
                     up), None)
        | e :: es =>
            match scheduleEditor.renderEntries "" (e :: es) with
            | Normal h =>
                (ofView (tm, ty, Some h,
                         Some (normalizeNewlines
                                 (scheduleEditor.serialize (e :: es))), up),
                 None)
            | Throw x => (ofView (tm, ty, sl, ta, up), Some x)
            end
        end
    | _, _ => (ofView (tm, ty, sl, ta, up), None)
    end.
Proof.
  unfold scheduleEditor.updateScheduleList.
  cbn [ofView page times scheduleList timesTextarea].
  destruct sl, ta; try reflexivity.
  destruct (scheduleEditor.timeEntries tm) as [| e es]; [reflexivity |].
  destruct (scheduleEditor.renderEntries "" (e :: es)); reflexivity.
Qed.

Lemma updateUpcoming_ofView (cd : option colors) (tza now : Z) :
  updateUpcomingAnnouncements cd tza now (ofView (tm, ty, sl, ta, up))
  = match up, ta with
    | Some _, Some value =>
        match upcomingOf tza now value with
        | [] => (ofView (tm, ty, sl, ta, Some upcoming.emptyHtml), None)
        | it :: l =>
            (ofView (tm, ty, sl, ta,
                     Some (fst (upcoming.renderItems cd "" (it :: l)))),
             snd (upcoming.renderItems cd "" (it :: l)))
        end
    | _, _ => (ofView (tm, ty, sl, ta, up), None)
    end.
Proof.
  unfold updateUpcomingAnnouncements.
  cbn [ofView page upcomingList timesTextarea].
  destruct up, ta; try reflexivity.
  destruct (upcomingOf tza now s0) as [| it l]; [reflexivity |].
  destruct (upcoming.renderItems cd "" (it :: l)); reflexivity.
Qed.

End OnViews.

Ltac reuse_case :=
  match goal with
  | H : ?x = _ |- context [match ?x with _ => _ end] => rewrite H
  end.

Ltac split_case :=
  match goal with
  | |- context [match ?x with _ => _ end] =>
      lazymatch x with
      | context [match _ with _ => _ end] => fail
      | _ => destruct x eqn:?
      end
  end.

(** One step of a run on a bare view: the next statement is evaluated by its
    equation, or the case it waits for is split. *)
Ltac step_view :=
  first
    [ rewrite replaceTimes_ofView | rewrite replaceTypes_ofView
    | rewrite updateScheduleList_ofView | rewrite updateUpcoming_ofView
    | rewrite updateTypesList_ofView | rewrite updateTypeDropdown_ofView
    | rewrite showNotification_ofView | rewrite setLoading_ofView
    | reuse_case | split_case ];
  cbv beta iota; cbn [fst snd].

Ltac run_views :=
  unfold tryCatch, tryFinally, seq, skip, throw; cbv beta iota;
  cbn [fst snd]; repeat step_view; reflexivity.

(** C7. Running the refresh twice against one server response and at one
    instant leaves the caches, the schedule list, its serialization and the
    upcoming list as one run leaves them; this holds for [refreshState] and
    for [scheduleEditor.refreshSchedule]. *)
Theorem C7_refresh_idempotent :
  forall (tza now : Z) (r : fetched) (s : State),
    view (fst (refreshState tza now r (fst (refreshState tza now r s))))
    = view (fst (refreshState tza now r s))
    /\ view (fst (refreshSchedule tza now r
                    (fst (refreshSchedule tza now r s))))
       = view (fst (refreshSchedule tza now r s)).
Proof.
  intros tza now r s. split.
  - apply idempotent_from_views; [apply respects_refreshState |].
    intros [[[[tm ty] sl] ta] up]. unfold refreshState.
    destruct r as [e | [|] [[er [st |] tms cts] | e]]; try reflexivity.
    cbn [b_status b_times b_custom_types].
    destruct (String.eqb st "success"); [| reflexivity].
    run_views.
  - apply idempotent_from_views; [apply respects_refreshSchedule |].
    intros [[[[tm ty] sl] ta] up].
    unfold refreshSchedule, UI.showLoading, UI.hideLoading.
    destruct (request r "Failed to refresh schedule") as [result | e];
      [| reflexivity].
    destruct result as [er st tms cts].
    cbn [b_status b_times b_custom_types].
    run_views.
Qed.

(** ** Type labels *)

Lemma existsb_eqb_false (x : string) (l : list string) :
  ~ In x l -> existsb (String.eqb x) l = false.
Proof.
  induction l as [| y l IH]; intro H; [reflexivity |].
  simpl. destruct (String.eqb_spec x y) as [-> | N].
  - exfalso. apply H. now left.
  - apply IH. intro I. apply H. now right.
Qed.

(** C6, as the code has it.  The label of a custom reference is the name
    prefixed with ["Custom: "]; the four built-in tokens have their fixed
    labels; any other token that is not the name of a member every object
    inherits is its own label; and such an inherited name yields the
    inherited member, not the token. *)
Theorem C6_type_label :
  (forall name,
      labelText (typeLabel ("custom:" ++ name)) = "Custom: " ++ name)
  /\ labelText (typeLabel ":55") = "Color Warning"
  /\ labelText (typeLabel "hour") = "Hour Change"
  /\ labelText (typeLabel "rules") = "Rules"
  /\ labelText (typeLabel "ad") = "Advertisement"
  /\ (forall token,
         startsWith token "custom:" = false ->
         JSMap.get token typeLabels = None ->
         ~ In token ObjectPrototypeKeys ->
         labelText (typeLabel token) = token)
  /\ (forall token,
         In token ObjectPrototypeKeys ->
         typeLabel token = VInherited token).
Proof.
  split; [intro name; destruct name; reflexivity |].
  do 4 (split; [reflexivity |]).
  split.
  - intros token Hc Hn Hp. unfold typeLabel, getLabel.
    now rewrite Hc, Hn, (existsb_eqb_false _ _ Hp).
  - intros token H. simpl in H.
    repeat (destruct H as [<- | H]; [reflexivity |]). contradiction.
Qed.

Lemma C6_type_label_witness :
  labelText (typeLabel "birthday") = "birthday"
  /\ typeLabel "toString" = VInherited "toString".
Proof.
  split.
  - apply (proj1 (proj2 (proj2 (proj2 (proj2 (proj2 C6_type_label)))))).
    + reflexivity.
    + reflexivity.
    + simpl. intuition discriminate.
  - apply (proj2 (proj2 (proj2 (proj2 (proj2 (proj2 C6_type_label)))))).
    simpl. auto 10.
Defined.

(** C6 as stated fails: the label of [Custom("vip")] is not the bare name. *)
Lemma C6_counterexample :
  labelText (typeLabel "custom:vip") = "Custom: vip"
  /\ labelText (typeLabel "custom:vip") <> "vip".
Proof. split; [reflexivity | discriminate]. Qed.

(** ** Mutations *)

Section Keeps.
Context {A : Type}.
Variable proj : State -> A.

Lemma keeps_skip : keeps proj skip.
Proof. intro s. reflexivity. Qed.

Lemma keeps_throw (e : exn) : keeps proj (throw e).
Proof. intro s. reflexivity. Qed.

Lemma keeps_seq (a b : Eff) :
  keeps proj a -> keeps proj b -> keeps proj (a ;; b).
Proof.
  intros Ha Hb s. unfold seq. specialize (Ha s).
  destruct (a s) as [s' [e |]]; cbn [fst] in *; [exact Ha |].
  now rewrite Hb.
Qed.

Lemma keeps_tryCatch (body : Eff) (handler : exn -> Eff) :
  keeps proj body -> (forall e, keeps proj (handler e)) ->
  keeps proj (tryCatch body handler).
Proof.
  intros Hb Hh s. unfold tryCatch. specialize (Hb s).
  destruct (body s) as [s' [e |]]; cbn [fst] in *; [| exact Hb].
  now rewrite Hh.
Qed.

Lemma keeps_tryFinally (body final : Eff) :
  keeps proj body -> keeps proj final -> keeps proj (tryFinally body final).
Proof.
  intros Hb Hf s. unfold tryFinally. specialize (Hb s).
  destruct (body s) as [s' [e |]]; cbn [fst] in *.
  - specialize (Hf s'). destruct (final s') as [s'' [e' |]];
      cbn [fst] in *; congruence.
  - now rewrite Hf.
Qed.

Lemma keeps_modify (f : State -> State) :
  (forall s, proj (f s) = proj s) -> keeps proj (modify f).
Proof. intros H s. apply H. Qed.

End Keeps.

Section RefreshKeepsAlerts.

Lemma replaceTimes_keeps_alerts (o : option (list (string * string))) :
  keeps alertsOf (replaceTimes o).
Proof.
  apply keeps_seq; [now apply keeps_modify |].
  destruct o; [now apply keeps_modify | apply keeps_throw].
Qed.

Lemma replaceTypes_keeps_alerts (o : option (list (string * string))) :
  keeps alertsOf (replaceTypes o).
Proof.
  apply keeps_seq; [now apply keeps_modify |].
  destruct o; [now apply keeps_modify | apply keeps_throw].
Qed.

Lemma updateScheduleList_keeps_alerts :
  keeps alertsOf scheduleEditor.updateScheduleList.
Proof.
  intros [tm ty [fl lo sl ta up cl ct nt nty nn ntt]].
  unfold scheduleEditor.updateScheduleList.
  cbn [page times scheduleList timesTextarea].
  destruct sl, ta; try reflexivity.
  destruct (scheduleEditor.timeEntries tm) as [| e es]; [reflexivity |].
  destruct (scheduleEditor.renderEntries "" (e :: es)); reflexivity.
Qed.

Lemma updateTypesList_keeps_alerts :
  keeps alertsOf customTypes.updateTypesList.
Proof.
  apply keeps_modify.
  intros [tm ty [fl lo sl ta up [cl |] [ct |] nt nty nn ntt]]; reflexivity.
Qed.

Lemma updateTypeDropdown_keeps_alerts :
  keeps alertsOf customTypes.updateTypeDropdown.
Proof.
  apply keeps_modify.
  intros [tm ty [fl lo sl ta up cl ct nt [nty |] nn ntt]]; reflexivity.
Qed.

Lemma updateUpcoming_keeps_alerts (cd : option colors) (tza now : Z) :
  keeps alertsOf (updateUpcomingAnnouncements cd tza now).
Proof.
  intros [tm ty [fl lo sl ta up cl ct nt nty nn ntt]].
  unfold updateUpcomingAnnouncements.
  cbn [page upcomingList timesTextarea].
  destruct up, ta; try reflexivity.
  destruct (upcomingOf tza now s0) as [| it l]; [reflexivity |].
  destruct (upcoming.renderItems cd "" (it :: l)); reflexivity.
Qed.

(** The resynchronisation adds no alert. *)
Lemma refreshState_keeps_alerts (tza now : Z) (r : fetched) :
  keeps alertsOf (refreshState tza now r).
Proof.
  unfold refreshState.
  apply keeps_tryCatch; [| intro; apply keeps_skip].
  destruct r as [e | [|] [data | e]];
    try apply keeps_skip; try apply keeps_throw.
  destruct (b_status data) as [st |]; [| apply keeps_skip].
  destruct (String.eqb st "success"); [| apply keeps_skip].
  apply keeps_seq; [apply replaceTimes_keeps_alerts |].
  apply keeps_seq; [apply updateScheduleList_keeps_alerts |].
  apply keeps_seq; [apply replaceTypes_keeps_alerts |].
  apply keeps_seq; [apply updateTypesList_keeps_alerts |].
  apply keeps_seq; [apply updateTypeDropdown_keeps_alerts |].
  apply updateUpcoming_keeps_alerts.
Qed.




Lemma seq_completes (a b : Eff) (s : State) :
  snd (a s) = None -> (a ;; b) s = b (fst (a s)).
Proof. unfold seq. destruct (a s) as [s' o]. cbn. now intros ->. Qed.



Lemma refreshState_completes (tza now : Z) (r : fetched) (s : State) :
  snd (refreshState tza now r s) = None.
Proof.
  unfold refreshState, tryCatch.
  match goal with |- snd (match ?b with _ => _ end) = _ =>
    destruct b as [? [? |]] end; reflexivity.
Qed.


End RefreshKeepsAlerts.




(** ** The round trip of the serialization *)

Section RoundTrip.

Lemma isEmpty_true (x : string) : isEmpty x = true -> x = "".
Proof. destruct x; [reflexivity | discriminate]. Qed.

Lemma append_not_empty (a b : string) : b <> "" -> a ++ b <> "".
Proof. destruct a; [trivial | discriminate]. Qed.

(** Trimming the end of a text touches only a final part that does not
    vanish. *)
Lemma trimEnd_app_keep (a b : string) :
  trimEnd b <> "" -> trimEnd (a ++ b) = a ++ trimEnd b.
Proof.
  intro H. induction a as [| c a IH]; [reflexivity |].
  simpl. rewrite IH.
  destruct (a ++ trimEnd b) eqn:E.
  - exfalso. now apply (append_not_empty a (trimEnd b) H).
  - now rewrite andb_false_r.
Qed.

Lemma join_cons2 (sep x y : string) (rest : list string) :
  join sep (x :: y :: rest) = x ++ sep ++ join sep (y :: rest).
Proof. reflexivity. Qed.

Lemma join_trimLast_not_empty (l : list string) :
  l <> [] -> (forall x, In x l -> trimEnd x <> "") ->
  join nl (trimLast l) <> "".
Proof.
  destruct l as [| x [| y rest]]; intros Hne H.
  - contradiction.
  - simpl. apply H. now left.
  - change (trimLast (x :: y :: rest)) with (x :: trimLast (y :: rest)).
    destruct (trimLast (y :: rest)) eqn:E.
    + destruct rest; discriminate E.
    + rewrite join_cons2. apply append_not_empty. discriminate.
Qed.

Lemma join_cons (sep x : string) (l : list string) :
  l <> [] -> join sep (x :: l) = x ++ sep ++ join sep l.
Proof. destruct l; [contradiction | reflexivity]. Qed.

Lemma trimLast_not_nil (l : list string) : l <> [] -> trimLast l <> [].
Proof. destruct l as [| x [| y rest]]; [contradiction | |]; discriminate. Qed.

Lemma trimEnd_join (l : list string) :
  (forall x, In x l -> trimEnd x <> "") ->
  trimEnd (join nl l) = join nl (trimLast l).
Proof.
  induction l as [| x l IH]; intro H; [reflexivity |].
  destruct l as [| y rest]; [reflexivity |].
  change (trimLast (x :: y :: rest)) with (x :: trimLast (y :: rest)).
  assert (H' : forall z, In z (y :: rest) -> trimEnd z <> "")
    by (intros z I; apply H; now right).
  rewrite join_cons by discriminate.
  rewrite (join_cons nl x (trimLast (y :: rest)))
    by (apply trimLast_not_nil; discriminate).
  rewrite <- (IH H'), <- !append_assoc.
  apply trimEnd_app_keep.
  rewrite (IH H'). apply join_trimLast_not_empty; [discriminate | exact H'].
Qed.

Lemma contains_join (c : ascii) (l : list string) :
  Ascii.eqb c LF = false ->
  (forall x, In x l -> contains c x = false) ->
  contains c (join nl l) = false.
Proof.
  intros Hc. induction l as [| x l IH]; intro H; [reflexivity |].
  destruct l as [| y rest]; [apply H; now left |].
  rewrite join_cons2, !contains_app, (H x (or_introl eq_refl)).
  rewrite IH by (intros z I; apply H; now right).
  unfold nl. rewrite contains_cons, Hc. reflexivity.
Qed.

Lemma map_trimLast {B : Type} (f : string -> B) (l : list string) :
  (forall x, In x l -> f (trimEnd x) = f x) -> map f (trimLast l) = map f l.
Proof.
  induction l as [| x l IH]; intro H; [reflexivity |].
  destruct l as [| y rest].
  - simpl. now rewrite H by now left.
  - change (trimLast (x :: y :: rest)) with (x :: trimLast (y :: rest)).
    cbn [map]. f_equal. apply IH. intros z I. apply H. now right.
Qed.

Lemma Forall_trimLast (P : string -> Prop) (l : list string) :
  (forall x, In x l -> P x /\ P (trimEnd x)) -> Forall P (trimLast l).
Proof.
  induction l as [| x l IH]; intro H; [constructor |].
  destruct l as [| y rest].
  - constructor; [apply H; now left | constructor].
  - change (trimLast (x :: y :: rest)) with (x :: trimLast (y :: rest)).
    constructor; [apply H; now left |].
    apply IH. intros z I. apply H. now right.
Qed.

Lemma filter_all {B : Type} (f : B -> bool) (l : list B) :
  Forall (fun x => f x = true) l -> filter f l = l.
Proof.
  induction 1 as [| x l Hx _ IH]; [reflexivity |].
  simpl. now rewrite Hx, IH.
Qed.

(** What one serialized line offers the parser. *)
Lemma entryLine_facts (k t : string) :
  isTimeKey k = true -> plainToken t = true ->
  let l := scheduleEditor.entryLine (k, t) in
  contains LF l = false /\ contains CR l = false
  /\ (exists c r, l = String c r /\ is_ws c = false)
  /\ trimEnd l <> ""
  /\ contains LF (trimEnd l) = false
  /\ isEmpty (trim l) = false /\ isEmpty (trim (trimEnd l)) = false
  /\ parseLine l = (k, Some t) /\ parseLine (trimEnd l) = (k, Some t).
Proof.
  intros K P l.
  destruct (isTimeKey_plain k K) as (Keq & Klf & Kcr & Ktrim & Kne & _).
  pose proof P as P'. unfold plainToken in P'.
  apply andb_true_iff in P' as [P' Ttrim].
  apply andb_true_iff in P' as [P' Tcr].
  apply andb_true_iff in P' as [Teq Tlf].
  apply negb_true_iff in Teq, Tlf, Tcr. apply String.eqb_eq in Ttrim.
  destruct (trimmed_inv k Ktrim) as [_ [-> | (c & r & -> & Hc)]];
    [contradiction |].
  destruct (trimmed_inv t Ttrim) as [Tend Tshape].
  assert (L : l = String c (r ++ " = " ++ t)) by reflexivity.
  assert (E : trimEnd l
              = if isEmpty t then String c r ++ " =" else l).
  { unfold l, scheduleEditor.entryLine. cbn [fst snd].
    destruct Tshape as [-> | (d & u & -> & Hd)].
    - cbn [isEmpty]. rewrite trimEnd_app_keep by (vm_compute; discriminate).
      reflexivity.
    - cbn [isEmpty].
      replace (String c r ++ " = " ++ String d u)
        with ((String c r ++ " = ") ++ String d u)
        by now rewrite append_assoc.
      rewrite trimEnd_app_keep by (rewrite Tend; discriminate).
      now rewrite Tend. }
  assert (Pl : parseLine l = (String c r, Some t))
    by (apply parseLine_plain; assumption).
  assert (Pe : parseLine (trimEnd l) = (String c r, Some t)).
  { rewrite E. destruct t as [| d u]; cbn [isEmpty]; [| exact Pl].
    unfold parseLine.
    replace (String c r ++ " =") with ((String c r ++ " ") ++ String "=" "")
      by now rewrite append_assoc.
    rewrite split_app_sep by (rewrite contains_app, Keq; reflexivity).
    cbn [split map nth_error]. now rewrite (trim_app_space _ Ktrim). }
  assert (Tl : trim l = String c (trimEnd (r ++ " = " ++ t))).
  { rewrite L. unfold trim. cbn [trimStart]. rewrite Hc.
    now apply trimEnd_nonempty. }
  assert (Te : trimEnd l = String c (trimEnd (r ++ " = " ++ t)))
    by (rewrite L; now apply trimEnd_nonempty).
  repeat split.
  - unfold l, scheduleEditor.entryLine. cbn [fst snd].
    rewrite !contains_app, Klf, Tlf. reflexivity.
  - unfold l, scheduleEditor.entryLine. cbn [fst snd].
    rewrite !contains_app, Kcr, Tcr. reflexivity.
  - exists c, (r ++ " = " ++ t). now split.
  - rewrite Te. discriminate.
  - rewrite E. destruct (isEmpty t).
    + rewrite contains_app, Klf. reflexivity.
    + unfold l, scheduleEditor.entryLine. cbn [fst snd].
      rewrite !contains_app, Klf, Tlf. reflexivity.
  - now rewrite Tl.
  - rewrite Te. unfold trim. cbn [trimStart]. rewrite Hc.
    cbn [trimEnd]. rewrite Hc. reflexivity.
  - exact Pl.
  - exact Pe.
Qed.

(** Parsing the serialization of entries with canonical keys and plain
    tokens gives the entries back, in order. *)
Lemma parse_serialize (es : list (string * string)) :
  (forall e, In e es ->
             isTimeKey (fst e) = true /\ plainToken (snd e) = true) ->
  parseSchedule (normalizeNewlines (scheduleEditor.serialize es))
  = map parsedEntry es.
Proof.
  intro H. destruct es as [| e0 es0] eqn:Ees; [reflexivity |].
  rewrite <- Ees in *.
  assert (Ene : es <> []) by (rewrite Ees; discriminate). clear Ees e0 es0.
  set (L := map scheduleEditor.entryLine es).
  assert (Facts : forall x, In x L ->
            exists k t, x = scheduleEditor.entryLine (k, t)
                        /\ isTimeKey k = true /\ plainToken t = true).
  { intros x I. apply in_map_iff in I as ([k t] & <- & I).
    destruct (H _ I). eauto. }
  assert (Lne : L <> [])
    by (unfold L; destruct es; [contradiction | discriminate]).
  unfold scheduleEditor.serialize. fold L.
  rewrite normalizeNewlines_id.
  2:{ apply contains_join; [reflexivity |]. intros x I.
      destruct (Facts x I) as (k & t & -> & K & P).
      apply (entryLine_facts k t K P). }
  unfold parseSchedule, nonBlankLines.
  assert (T : trim (join nl L) = join nl (trimLast L)).
  { unfold trim.
    assert (S : trimStart (join nl L) = join nl L).
    { destruct L as [| x L']; [contradiction |].
      destruct (Facts x (or_introl eq_refl)) as (k & t & -> & K & P).
      destruct (entryLine_facts k t K P) as (_ & _ & (c & r & E & Hc) & _).
      rewrite E. destruct L'; simpl; now rewrite Hc. }
    rewrite S. apply trimEnd_join. intros x I.
    destruct (Facts x I) as (k & t & -> & K & P).
    apply (entryLine_facts k t K P). }
  rewrite T.
  rewrite (split_join LF).
  2:{ now apply trimLast_not_nil. }
  2:{ apply Forall_trimLast. intros x I.
      destruct (Facts x I) as (k & t & -> & K & P).
      split; apply (entryLine_facts k t K P). }
  rewrite filter_all.
  2:{ apply Forall_trimLast. intros x I.
      destruct (Facts x I) as (k & t & -> & K & P).
      destruct (entryLine_facts k t K P) as (_ & _ & _ & _ & _ & B1 & B2 & _).
      now rewrite B1, B2. }
  rewrite map_trimLast.
  2:{ intros x I. destruct (Facts x I) as (k & t & -> & K & P).
      destruct (entryLine_facts k t K P)
        as (_ & _ & _ & _ & _ & _ & _ & P1 & P2).
      now rewrite P1, P2. }
  unfold L. rewrite map_map. apply map_ext_in. intros [k t] I.
  destruct (H _ I) as [K P].
  now destruct (entryLine_facts k t K P)
    as (_ & _ & _ & _ & _ & _ & _ & P1 & _).
Qed.

Lemma get_In (m : JSMap.Map) (k v : string) :
  NoDup (JSMap.keys m) -> (JSMap.get k m = Some v <-> In (k, v) m).
Proof.
  induction m as [| [k' v'] rest IH]; simpl; intro N.
  - split; [discriminate | contradiction].
  - inversion N as [| ? ? Hn Hr]; subst.
    destruct (String.eqb_spec k k') as [-> | D].
    + split.
      * intros [= ->]. now left.
      * intros [[= ->] | I]; [reflexivity |].
        exfalso. apply Hn. now apply (in_map fst _ (k', v)).
    + rewrite (IH Hr). split; [now right |].
      intros [[= -> ->] | I]; [contradiction | exact I].
Qed.

End RoundTrip.

(** C3, as the code has it.  For a schedule cache whose keys are canonical
    TimeKeys and whose type tokens contain no [=] and no line break and have
    no white space at either end, the text that the schedule editor writes
    into the text area parses, line by line, back to the entries of the
    cache in their sorted order, and so to the same mapping. *)
Theorem C3_round_trip :
  forall (s : State) (sl ta : string),
    scheduleList (page s) = Some sl ->
    timesTextarea (page s) = Some ta ->
    NoDup (JSMap.keys (times s)) ->
    (forall e, In e (times s) ->
               isTimeKey (fst e) = true /\ plainToken (snd e) = true) ->
    exists value,
      timesTextarea (page (fst (scheduleEditor.updateScheduleList s)))
      = Some value
      /\ value
         = normalizeNewlines
             (scheduleEditor.serialize (scheduleEditor.timeEntries (times s)))
      /\ parseSchedule value
         = map parsedEntry (scheduleEditor.timeEntries (times s))
      /\ (forall k v,
             In (k, Some v) (parseSchedule value)
             <-> JSMap.get k (times s) = Some v).
Proof.
  intros s sl ta Hsl Hta N H.
  set (es := scheduleEditor.timeEntries (times s)).
  assert (P : Permutation es (times s)) by apply sort_perm.
  assert (Hes : forall e, In e es ->
              isTimeKey (fst e) = true /\ plainToken (snd e) = true)
    by (intros e I; apply H; now apply (Permutation_in _ P)).
  exists (normalizeNewlines (scheduleEditor.serialize es)).
  split; [| split; [reflexivity | split]].
  - unfold scheduleEditor.updateScheduleList. rewrite Hsl, Hta. fold es.
    destruct es as [| e es'] eqn:Ees; [reflexivity |].
    rewrite (renderEntries_ok _ "" (fun e I => proj1 (Hes e I))).
    reflexivity.
  - now apply parse_serialize.
  - intros k v. rewrite (parse_serialize es Hes), (get_In _ _ _ N).
    split.
    + intro I. apply in_map_iff in I as ([k' v'] & [= -> ->] & I).
      now apply (Permutation_in _ P).
    + intro I. apply in_map_iff. exists (k, v). split; [reflexivity |].
      now apply (Permutation_in _ (Permutation_sym P)).
Qed.

Lemma C3_round_trip_witness :
  exists value,
    timesTextarea
      (page (fst (scheduleEditor.updateScheduleList
                    (mkState [("10:55", ":55"); ("10:00", "custom:vip")] []
                       blankPage))))
    = Some value
    /\ parseSchedule value
       = [("10:00", Some "custom:vip"); ("10:55", Some ":55")].
Proof.
  destruct (C3_round_trip
              (mkState [("10:55", ":55"); ("10:00", "custom:vip")] []
                 blankPage) "" "" eq_refl eq_refl)
    as (value & E1 & _ & E2 & _).
  - repeat constructor; simpl; intuition discriminate.
  - intros e [<- | [<- | []]]; split; reflexivity.
  - exists value. split; [exact E1 | exact E2].
Defined.

(** C3 as stated fails: a custom type whose name contains [=] is cut at the
    sign when its line is parsed. *)
Lemma C3_counterexample :
  isTimeKey "10:00" = true
  /\ parseSchedule
       (normalizeNewlines
          (scheduleEditor.serialize
             (scheduleEditor.timeEntries
                (afterSets [("10:00", "custom:a=b")]))))
     = [("10:00", Some "custom:a")]
  /\ parseSchedule
       (normalizeNewlines
          (scheduleEditor.serialize
             (scheduleEditor.timeEntries
                (afterSets [("10:00", "custom:a=b")]))))
     <> map parsedEntry
          (scheduleEditor.timeEntries (afterSets [("10:00", "custom:a=b")])).
Proof.
  split; [reflexivity | split; [reflexivity | discriminate]].
Qed.

(** ** Lines that are not entries *)

Section Malformed.

(** A date that is not valid stays so and is outside every window. *)
Lemma occurrence_invalid_drops (tza now : Z) (hours : number)
  (minutes : option number) :
  setHours tza (TV now) (Some hours) minutes (Some (ofZ 0)) (Some (ofZ 0))
  = Invalid ->
  leZ (roundQuotient (minus (occurrence tza now hours minutes) (TV now))
         1000 60) 60 = false.
Proof.
  intro H. unfold occurrence. rewrite H. reflexivity.
Qed.

Lemma setHours_not_numeric (tza now : Z) (nums : list number) :
  match nums with
  | h :: mn :: _ => (isFinite h && isFinite mn)%bool
  | _ => false
  end = false ->
  setHours tza (TV now)
    (Some match nums with h :: _ => h | [] => NaN end)
    (nth_error nums 1) (Some (ofZ 0)) (Some (ofZ 0))
  = Invalid.
Proof.
  destruct nums as [| h [| mn rest]]; intro H.
  - reflexivity.
  - destruct h; reflexivity.
  - cbn [nth_error].
    destruct h as [| b | m p]; try reflexivity.
    destruct mn as [| b | m' p']; try reflexivity.
    discriminate H.
Qed.

(** A line without a numeric hour and minute yields no item. *)
Lemma projectLine_not_numeric (tza now : Z) (line : string) :
  numericTime line = false -> projectLine tza now line = None.
Proof.
  unfold numericTime, projectLine. destruct (parseLine line) as [timeStr ty].
  cbn [fst]. intro H.
  now rewrite (occurrence_invalid_drops _ _ _ _
                 (setHours_not_numeric tza now _ H)).
Qed.

(** The item of a line carries the two fields of the line. *)
Lemma projectLine_fields (tza now : Z) (line : string) (it : item) :
  projectLine tza now line = Some it ->
  time it = fst (parseLine line) /\ type it = snd (parseLine line)
  /\ numericTime line = true.
Proof.
  intro H.
  destruct (numericTime line) eqn:E;
    [| rewrite (projectLine_not_numeric tza now line E) in H; discriminate].
  unfold projectLine in H. destruct (parseLine line) as [timeStr ty].
  match type of H with (if ?c then _ else _) = _ => destruct c end;
    [| discriminate].
  injection H as <-. now repeat split.
Qed.

Lemma numericTime_formats (line : string) :
  numericTime line = true ->
  exists text, Utils.formatTime (fst (parseLine line)) = Normal text.
Proof.
  unfold numericTime, Utils.formatTime.
  destruct (map Number (split ":" (fst (parseLine line))))
    as [| h [| mn rest]]; try discriminate.
  intros _. cbn [nth_error]. eauto.
Qed.

(** A line with [=] has a second field. *)
Lemma parseLine_type (line : string) :
  contains "=" line = true -> snd (parseLine line) <> None.
Proof.
  unfold parseLine. cbn [snd]. induction line as [| c r IH]; [discriminate |].
  rewrite contains_cons. cbn [split].
  rewrite (Ascii.eqb_sym "="%char c).
  destruct (Ascii.eqb c "=") eqn:E; cbn [orb]; intro H.
  - pose proof (split_not_nil "=" r) as N.
    destruct (split "=" r); [contradiction | discriminate].
  - specialize (IH H).
    destruct (split "=" r) as [| p [| p' ps]]; cbn in *; congruence.
Qed.

Lemma renderItems_completes (cd : option colors) (l : list item)
  (html : string) :
  Forall renderable l -> snd (upcoming.renderItems cd html l) = None.
Proof.
  intro F. revert html. induction F as [| it l [Ht [text Hf]] _ IH];
    intro html; [reflexivity |].
  cbn [upcoming.renderItems]. unfold upcoming.renderItem.
  destruct (type it) as [ty |]; [| contradiction].
  rewrite Hf. apply IH.
Qed.

End Malformed.

(** C9, as the code has it.  Blank lines never reach the projection; a line
    whose time field lacks an hour and a minute that both convert to finite
    numbers yields no item; and when every line that is not blank contains
    [=], the projection completes without throwing.  A line whose numeric
    fields fall outside the [HH:MM] form is projected like an entry. *)
Theorem C9_malformed_lines :
  (forall tza now value it,
      In it (upcomingOf tza now value) ->
      exists line,
        In line (split LF (trim value)) /\ trim line <> ""
        /\ projectLine tza now line = Some it)
  /\ (forall tza now line,
         numericTime line = false -> projectLine tza now line = None)
  /\ (forall cd tza now s value,
         timesTextarea (page s) = Some value ->
         (forall line, In line (nonBlankLines value) ->
                       contains "=" line = true) ->
         snd (updateUpcomingAnnouncements cd tza now s) = None).
Proof.
  split; [| split].
  - intros tza now value it I.
    apply In_upcomingOf in I as (line & L & P).
    unfold nonBlankLines in L. apply filter_In in L as [L B].
    exists line. repeat split; try assumption.
    intro E. now rewrite E in B.
  - exact projectLine_not_numeric.
  - intros cd tza now s value Hta H.
    unfold updateUpcomingAnnouncements. rewrite Hta.
    destruct (upcomingList (page s)); [| reflexivity].
    destruct (upcomingOf tza now value) as [| it l] eqn:E; [reflexivity |].
    pose proof (renderItems_completes cd (it :: l) "") as R.
    destruct (upcoming.renderItems cd "" (it :: l)) as [html r].
    cbn [snd] in *. apply R. rewrite <- E.
    apply Forall_forall. intros x I.
    apply In_upcomingOf in I as (line & L & P).
    destruct (projectLine_fields tza now line x P) as (Et & Ety & Nm).
    split.
    + rewrite Ety. apply parseLine_type. now apply H.
    + rewrite Et. now apply numericTime_formats.
Qed.

Lemma C9_malformed_lines_witness :
  projectLine 0 (localInstant 0 20760 9 45 0 0) "soon = hour" = None
  /\ snd (updateUpcomingAnnouncements None 0 (localInstant 0 20760 9 45 0 0)
            (mkState [] []
               (setTimesTextarea
                  ("10:00 = hour" ++ nl ++ "soon = hour" ++ nl ++ "= =")
                  blankPage)))
     = None.
Proof.
  split.
  - apply (proj1 (proj2 C9_malformed_lines)). reflexivity.
  - apply (proj2 (proj2 C9_malformed_lines) None 0
             (localInstant 0 20760 9 45 0 0) _
             ("10:00 = hour" ++ nl ++ "soon = hour" ++ nl ++ "= =")).
    + reflexivity.
    + intros line [<- | [<- | [<- | []]]]; reflexivity.
Defined.

(** C9 as stated fails: the line [24:15 = hour] is no [HH:MM] entry, yet at
    23:30 it is projected, forty-five minutes ahead. *)
Lemma C9_counterexample :
  isTimeKey "24:15" = false
  /\ upcomingOf 0 (localInstant 0 20760 23 30 0 0) "24:15 = hour"
     = [mkItem "24:15" (Some "hour") (ofZ 45)
          (TV (localInstant 0 20761 0 15 0 0))]
  /\ updateUpcomingAnnouncements None 0 (localInstant 0 20760 23 30 0 0)
       (mkState [] [] (setTimesTextarea "24:15 = hour" blankPage))
     = (mkState [] []
          (setUpcomingList
             (upcoming.itemHtml "hour" "12:15 PM" "Hour Change" ""
                "45 minutes")
             (setTimesTextarea "24:15 = hour" blankPage)), None).
Proof.
  split; [reflexivity | split]; vm_compute; reflexivity.
Qed.

(** The same projection throws on a line without [=] that falls in the
    window: [type] is undefined when the item is rendered. *)
Lemma C9_throws_without_equals :
  updateUpcomingAnnouncements None 0 (localInstant 0 20760 9 45 0 0)
    (mkState [] [] (setTimesTextarea "10:00" blankPage))
  = (mkState [] [] (setUpcomingList "" (setTimesTextarea "10:00" blankPage)),
     Some (TypeError_undefined "startsWith")).
Proof. vm_compute. reflexivity. Qed.

(** * Further properties of the program *)

(** ** Formatting *)

Section Formatting.

(** A property of the integers from zero to [k], checked one by one. *)
Lemma upto (P : Z -> Prop) (k : nat) :
  (forall i, (i <= k)%nat -> P (Z.of_nat i)) ->
  forall n, 0 <= n <= Z.of_nat k -> P n.
Proof.
  intros H n R. rewrite <- (Z2Nat.id n) by lia. apply H. lia.
Qed.

Lemma minutes_padded (m : Z) :
  0 <= m <= 59 -> padStart 2 "0" (toString (ofZ m)) = twoDigits m.
Proof.
  revert m. apply (upto _ 59); intros i Hi.
  do 59 (destruct i as [| i]; [vm_compute; reflexivity |]).
  destruct i as [| i]; [vm_compute; reflexivity | lia].
Qed.

Lemma hours_displayed (h : Z) :
  0 <= h <= 23 ->
  toString (if truthy (remZ (ofZ h) 12) then remZ (ofZ h) 12 else ofZ 12)
  = digitsOf (hour12 h)
  /\ (if geZ (ofZ h) 12 then "PM" else "AM") = period h.
Proof.
  revert h. apply (upto _ 23); intros i Hi.
  do 23 (destruct i as [| i]; [vm_compute; split; reflexivity |]).
  destruct i as [| i]; [vm_compute; split; reflexivity | lia].
Qed.

(** A text with the separator splits into at least two parts. *)
Lemma split_two (sep : ascii) (s : string) :
  contains sep s = true -> exists a b rest, split sep s = a :: b :: rest.
Proof.
  induction s as [| c r IH]; [discriminate |].
  rewrite contains_cons. cbn [split]. rewrite (Ascii.eqb_sym sep c).
  destruct (Ascii.eqb c sep); cbn [orb]; intro H.
  - pose proof (split_not_nil sep r).
    destruct (split sep r) as [| b rest]; [contradiction |]. eauto.
  - destruct (IH H) as (a & b & rest & E). rewrite E. eauto.
Qed.

Lemma formatTime_no_colon (time : string) :
  contains ":" time = false ->
  Utils.formatTime time = Throw (TypeError_undefined "toString").
Proof. intro H. unfold Utils.formatTime. now rewrite (split_no_sep _ _ H). Qed.

Lemma formatTime_colon (time : string) :
  contains ":" time = true -> exists text, Utils.formatTime time = Normal text.
Proof.
  intro H. unfold Utils.formatTime.
  destruct (split_two _ _ H) as (a & b & rest & E). rewrite E.
  cbn [map nth_error]. eauto.
Qed.

End Formatting.

(** X1. [Utils.formatTime] turns the canonical key of hour [h] and minute [m]
    into twelve-hour form: the hour is [h] modulo twelve with twelve in
    place of zero, the minute keeps its two digits, and the suffix is PM
    from noon on. *)
Theorem X1_formatTime_canonical :
  forall h m,
    0 <= h <= 23 -> 0 <= m <= 59 ->
    Utils.formatTime (timeKey h m)
    = Normal (digitsOf (hour12 h) ++ ":" ++ twoDigits m ++ " " ++ period h).
Proof.
  intros h m Hh Hm. unfold Utils.formatTime.
  rewrite (timeKey_fields h m Hh Hm). cbn [nth_error]. cbv zeta.
  destruct (hours_displayed h Hh) as [E1 E2].
  now rewrite E1, E2, (minutes_padded m Hm).
Qed.

Lemma X1_formatTime_canonical_witness :
  Utils.formatTime (timeKey 0 5) = Normal "12:05 AM"
  /\ Utils.formatTime (timeKey 12 0) = Normal "12:00 PM"
  /\ Utils.formatTime (timeKey 23 59) = Normal "11:59 PM".
Proof.
  split; [| split].
  - apply (X1_formatTime_canonical 0 5); lia.
  - apply (X1_formatTime_canonical 12 0); lia.
  - apply (X1_formatTime_canonical 23 59); lia.
Defined.

(** X2. [Utils.formatTime] throws exactly when its argument has no colon:
    the minute part is then undefined and [minutes.toString()] is a
    TypeError.  With a colon it completes, whatever the two parts are. *)
Theorem X2_formatTime_throws :
  forall time,
    (contains ":" time = false ->
     Utils.formatTime time = Throw (TypeError_undefined "toString"))
    /\ (contains ":" time = true ->
        exists text, Utils.formatTime time = Normal text).
Proof.
  intro time. split.
  - apply formatTime_no_colon.
  - apply formatTime_colon.
Qed.

Lemma X2_formatTime_throws_witness :
  Utils.formatTime "noon" = Throw (TypeError_undefined "toString")
  /\ exists text, Utils.formatTime "x:y" = Normal text.
Proof.
  split.
  - apply (proj1 (X2_formatTime_throws "noon")). reflexivity.
  - apply (proj2 (X2_formatTime_throws "x:y")). reflexivity.
Defined.

(** ** The schedule list at its edges *)

Section ScheduleListEdges.

Lemma renderEntries_throws (es : list (string * string)) (html : string) :
  (exists e, In e es /\ contains ":" (fst e) = false) ->
  scheduleEditor.renderEntries html es
  = Throw (TypeError_undefined "toString").
Proof.
  revert html. induction es as [| [k t] es IH]; intros html (e & I & H).
  - contradiction.
  - cbn [scheduleEditor.renderEntries].
    destruct (contains ":" k) eqn:Ek.
    + destruct (formatTime_colon k Ek) as [text ->].
      apply IH. destruct I as [<- | I]; [| eauto].
      cbn [fst] in H. congruence.
    + now rewrite (formatTime_no_colon k Ek).
Qed.

Lemma renderEntries_completes (es : list (string * string)) (html : string) :
  (forall e, In e es -> contains ":" (fst e) = true) ->
  exists h, scheduleEditor.renderEntries html es = Normal h.
Proof.
  revert html. induction es as [| [k t] es IH]; intros html H.
  - cbn. eauto.
  - cbn [scheduleEditor.renderEntries].
    destruct (formatTime_colon k (H (k, t) (or_introl eq_refl))) as [text ->].
    apply IH. intros e I. apply H. now right.
Qed.

Lemma timeEntries_keys (m : JSMap.Map) (k : string) :
  In k (JSMap.keys m)
  <-> exists e, In e (scheduleEditor.timeEntries m) /\ fst e = k.
Proof.
  unfold JSMap.keys. rewrite in_map_iff. split; intros (e & A & B).
  - exists e. split; [| exact A].
    apply (Permutation_in _ (Permutation_sym (sort_perm _ _))). exact B.
  - exists e. split; [exact B |].
    apply (Permutation_in _ (sort_perm JSArray.defaultLe m)). exact A.
Qed.

End ScheduleListEdges.

(** X3. [scheduleEditor.updateScheduleList] at its edges.  Without the list
    or the text area it does nothing.  With both: a key without a colon makes
    it throw before anything is written, so list and text area keep their
    old content; when every key has a colon it completes and writes the
    serialization; an empty cache gives the placeholder item and an empty
    text. *)
Theorem X3_updateScheduleList_edges :
  forall (s : State),
    ((scheduleList (page s) = None \/ timesTextarea (page s) = None) ->
     scheduleEditor.updateScheduleList s = (s, None))
    /\ (forall sl ta,
           scheduleList (page s) = Some sl ->
           timesTextarea (page s) = Some ta ->
           ((exists k, In k (JSMap.keys (times s))
                       /\ contains ":" k = false) ->
            scheduleEditor.updateScheduleList s
            = (s, Some (TypeError_undefined "toString")))
           /\ ((forall k, In k (JSMap.keys (times s)) ->
                          contains ":" k = true) ->
               exists html,
                 scheduleEditor.updateScheduleList s
                 = (withPage
                      (setTimesTextarea
                         (scheduleEditor.serialize
                            (scheduleEditor.timeEntries (times s)))
                         (setScheduleList html (page s))) s, None))
           /\ (times s = [] ->
               scheduleEditor.updateScheduleList s
               = (withPage
                    (setTimesTextarea ""
                       (setScheduleList scheduleEditor.emptyHtml (page s)))
                    s, None))).
Proof.
  intro s. split.
  - unfold scheduleEditor.updateScheduleList.
    intros [H | H]; rewrite H; [reflexivity |].
    now destruct (scheduleList (page s)).
  - intros sl ta Hsl Hta. unfold scheduleEditor.updateScheduleList.
    rewrite Hsl, Hta. split; [| split].
    + intros (k & I & H). apply timeEntries_keys in I as (e & I & <-).
      destruct (scheduleEditor.timeEntries (times s)) as [| e0 es] eqn:E;
        [contradiction |].
      rewrite (renderEntries_throws (e0 :: es) ""); [reflexivity | eauto].
    + intro H.
      destruct (scheduleEditor.timeEntries (times s)) as [| e0 es] eqn:E.
      * eexists. reflexivity.
      * destruct (renderEntries_completes (e0 :: es) "") as [h Eh].
        -- intros e I. apply H. apply timeEntries_keys. exists e.
           split; [now rewrite E | reflexivity].
        -- rewrite Eh. eexists. reflexivity.
    + intros ->. reflexivity.
Qed.

Lemma X3_updateScheduleList_edges_witness :
  scheduleEditor.updateScheduleList
    (mkState [("10:00", "hour"); ("noon", "rules")] [] blankPage)
  = (mkState [("10:00", "hour"); ("noon", "rules")] [] blankPage,
     Some (TypeError_undefined "toString")).
Proof.
  apply (proj2 (X3_updateScheduleList_edges
                  (mkState [("10:00", "hour"); ("noon", "rules")] []
                     blankPage)) "" "" eq_refl eq_refl).
  exists "noon". split; [simpl; auto | reflexivity].
Defined.

(** ** What the statements leave alone *)

Section Frames.

Ltac page_cases :=
  intros [tm ty [fl lo sl ta up cl ct nt nty nn ntt]].

Lemma updateScheduleList_keeps_caches :
  keeps cachesOf scheduleEditor.updateScheduleList.
Proof.
  page_cases. unfold scheduleEditor.updateScheduleList.
  cbn [page times scheduleList timesTextarea].
  destruct sl, ta; try reflexivity.
  destruct (scheduleEditor.timeEntries tm) as [| e es]; [reflexivity |].
  destruct (scheduleEditor.renderEntries "" (e :: es)); reflexivity.
Qed.

Lemma updateScheduleList_keeps_overlay :
  keeps overlayOf scheduleEditor.updateScheduleList.
Proof.
  page_cases. unfold scheduleEditor.updateScheduleList.
  cbn [page times scheduleList timesTextarea].
  destruct sl, ta; try reflexivity.
  destruct (scheduleEditor.timeEntries tm) as [| e es]; [reflexivity |].
  destruct (scheduleEditor.renderEntries "" (e :: es)); reflexivity.
Qed.

Lemma updateUpcoming_keeps_caches (cd : option colors) (tza now : Z) :
  keeps cachesOf (updateUpcomingAnnouncements cd tza now).
Proof.
  page_cases. unfold updateUpcomingAnnouncements.
  cbn [page upcomingList timesTextarea].
  destruct up, ta; try reflexivity.
  destruct (upcomingOf tza now s0) as [| it l]; [reflexivity |].
  destruct (upcoming.renderItems cd "" (it :: l)); reflexivity.
Qed.

Lemma updateUpcoming_keeps_overlay (cd : option colors) (tza now : Z) :
  keeps overlayOf (updateUpcomingAnnouncements cd tza now).
Proof.
  page_cases. unfold updateUpcomingAnnouncements.
  cbn [page upcomingList timesTextarea].
  destruct up, ta; try reflexivity.
  destruct (upcomingOf tza now s0) as [| it l]; [reflexivity |].
  destruct (upcoming.renderItems cd "" (it :: l)); reflexivity.
Qed.

Lemma updateTypesList_keeps_caches :
  keeps cachesOf customTypes.updateTypesList.
Proof.
  apply keeps_modify.
  intros [tm ty [fl lo sl ta up [cl |] [ct |] nt nty nn ntt]]; reflexivity.
Qed.

Lemma updateTypesList_keeps_overlay :
  keeps overlayOf customTypes.updateTypesList.
Proof.
  apply keeps_modify.
  intros [tm ty [fl lo sl ta up [cl |] [ct |] nt nty nn ntt]]; reflexivity.
Qed.

Lemma updateTypeDropdown_keeps_caches :
  keeps cachesOf customTypes.updateTypeDropdown.
Proof.
  apply keeps_modify.
  intros [tm ty [fl lo sl ta up cl ct nt [nty |] nn ntt]]; reflexivity.
Qed.

Lemma updateTypeDropdown_keeps_overlay :
  keeps overlayOf customTypes.updateTypeDropdown.
Proof.
  apply keeps_modify.
  intros [tm ty [fl lo sl ta up cl ct nt [nty |] nn ntt]]; reflexivity.
Qed.




Lemma replaceTimes_keeps_overlay (o : option (list (string * string))) :
  keeps overlayOf (replaceTimes o).
Proof.
  apply keeps_seq; [now apply keeps_modify |].
  destruct o; [now apply keeps_modify | apply keeps_throw].
Qed.

Lemma replaceTypes_keeps_overlay (o : option (list (string * string))) :
  keeps overlayOf (replaceTypes o).
Proof.
  apply keeps_seq; [now apply keeps_modify |].
  destruct o; [now apply keeps_modify | apply keeps_throw].
Qed.

Lemma replaceTypes_keeps_times (o : option (list (string * string))) :
  keeps times (replaceTypes o).
Proof.
  apply keeps_seq; [now apply keeps_modify |].
  destruct o; [now apply keeps_modify | apply keeps_throw].
Qed.

(** A statement that keeps both caches keeps each. *)
Lemma keeps_times_of_caches (e : Eff) : keeps cachesOf e -> keeps times e.
Proof. intros H s. now injection (H s). Qed.

Lemma keeps_types_of_caches (e : Eff) : keeps cachesOf e -> keeps types e.
Proof. intros H s. now injection (H s). Qed.

Lemma refreshState_keeps_overlay (tza now : Z) (r : fetched) :
  keeps overlayOf (refreshState tza now r).
Proof.
  unfold refreshState.
  apply keeps_tryCatch; [| intro; apply keeps_skip].
  destruct r as [e | [|] [data | e]];
    try apply keeps_skip; try apply keeps_throw.
  destruct (b_status data) as [st |]; [| apply keeps_skip].
  destruct (String.eqb st "success"); [| apply keeps_skip].
  apply keeps_seq; [apply replaceTimes_keeps_overlay |].
  apply keeps_seq; [apply updateScheduleList_keeps_overlay |].
  apply keeps_seq; [apply replaceTypes_keeps_overlay |].
  apply keeps_seq; [apply updateTypesList_keeps_overlay |].
  apply keeps_seq; [apply updateTypeDropdown_keeps_overlay |].
  apply updateUpcoming_keeps_overlay.
Qed.

(** The part of [refreshState] that follows the schedule list. *)
Lemma typesTail_keeps_types (cd : option colors) (tza now : Z) :
  keeps types
    (customTypes.updateTypesList ;; customTypes.updateTypeDropdown ;;
     updateUpcomingAnnouncements cd tza now).
Proof.
  apply keeps_seq;
    [apply keeps_types_of_caches, updateTypesList_keeps_caches |].
  apply keeps_seq;
    [apply keeps_types_of_caches, updateTypeDropdown_keeps_caches |].
  apply keeps_types_of_caches, updateUpcoming_keeps_caches.
Qed.

Lemma typesTail_keeps_times (cd : option colors) (tza now : Z) :
  keeps times
    (customTypes.updateTypesList ;; customTypes.updateTypeDropdown ;;
     updateUpcomingAnnouncements cd tza now).
Proof.
  apply keeps_seq;
    [apply keeps_times_of_caches, updateTypesList_keeps_caches |].
  apply keeps_seq;
    [apply keeps_times_of_caches, updateTypeDropdown_keeps_caches |].
  apply keeps_times_of_caches, updateUpcoming_keeps_caches.
Qed.

Lemma tryCatch_skip_fst (body : Eff) (s : State) :
  fst (tryCatch body (fun _ => skip) s) = fst (body s).
Proof. unfold tryCatch. now destruct (body s) as [s' [e |]]. Qed.

Lemma seq_throws (a b : Eff) (s : State) (e : exn) :
  snd (a s) = Some e -> (a ;; b) s = a s.
Proof. unfold seq. destruct (a s) as [s' o]. cbn. now intros ->. Qed.

End Frames.

(** ** The cache as a mirror of the snapshot *)

Section Mirror.

Lemma get_app (k : string) (a b : JSMap.Map) :
  JSMap.get k (a ++ b)%list
  = match JSMap.get k a with
    | Some v => Some v
    | None => JSMap.get k b
    end.
Proof.
  induction a as [| [k' v'] a IH]; [reflexivity |].
  simpl. destruct (String.eqb k k'); [reflexivity | exact IH].
Qed.

Lemma get_set (k k' v' : string) (m : JSMap.Map) :
  JSMap.get k (JSMap.set k' v' m)
  = if String.eqb k k' then Some v' else JSMap.get k m.
Proof.
  induction m as [| [k2 v2] m IH]; simpl.
  - reflexivity.
  - destruct (String.eqb_spec k' k2) as [-> | N]; simpl.
    + now destruct (String.eqb k k2).
    + destruct (String.eqb_spec k k2) as [-> | N2].
      * destruct (String.eqb_spec k2 k'); congruence.
      * exact IH.
Qed.

(** A lookup after a replacement finds the last binding written. *)
Lemma get_setAll (k : string) (es : list (string * string)) (m : JSMap.Map) :
  JSMap.get k (JSMap.setAll es m)
  = match lastBinding k es with
    | Some v => Some v
    | None => JSMap.get k m
    end.
Proof.
  revert m. induction es as [| [k' v'] es IH]; intro m; [reflexivity |].
  change (JSMap.setAll ((k', v') :: es) m)
    with (JSMap.setAll es (JSMap.set k' v' m)).
  rewrite IH. unfold lastBinding. cbn [rev]. rewrite get_app.
  destruct (JSMap.get k (rev es)); [reflexivity |].
  rewrite get_set. cbn [JSMap.get]. now destruct (String.eqb k k').
Qed.

Lemma set_fresh (k v : string) (m : JSMap.Map) :
  ~ In k (JSMap.keys m) -> JSMap.set k v m = (m ++ [(k, v)])%list.
Proof.
  induction m as [| [k' v'] m IH]; intro H; [reflexivity |].
  simpl. destruct (String.eqb_spec k k') as [-> | N].
  - exfalso. apply H. now left.
  - f_equal. apply IH. intro I. apply H. now right.
Qed.

(** Entries with distinct keys are stored as they come. *)
Lemma setAll_fresh (es : list (string * string)) (m : JSMap.Map) :
  NoDup (JSMap.keys m ++ map fst es)%list ->
  JSMap.setAll es m = (m ++ es)%list.
Proof.
  revert m. induction es as [| [k v] es IH]; intros m H.
  - now rewrite app_nil_r.
  - change (JSMap.setAll ((k, v) :: es) m)
      with (JSMap.setAll es (JSMap.set k v m)).
    cbn [map fst] in H.
    assert (F : ~ In k (JSMap.keys m)).
    { apply NoDup_remove_2 in H. intro I. apply H, in_or_app. now left. }
    rewrite (set_fresh k v m F), IH.
    + now rewrite <- app_assoc.
    + unfold JSMap.keys. rewrite map_app. cbn [map fst].
      rewrite <- app_assoc. exact H.
Qed.

Lemma setAll_has_keys (es : list (string * string)) (m : JSMap.Map)
  (k : string) :
  In k (map fst es) \/ In k (JSMap.keys m) ->
  In k (JSMap.keys (JSMap.setAll es m)).
Proof.
  revert m. induction es as [| [k' v'] es IH]; intros m H.
  - destruct H as [[] | H]. exact H.
  - change (JSMap.setAll ((k', v') :: es) m)
      with (JSMap.setAll es (JSMap.set k' v' m)).
    apply IH. cbn [map fst] in H.
    destruct H as [[-> | H] | H]; [right | now left | right];
      apply set_keys; auto.
Qed.

Lemma updateScheduleList_completes (s : State) :
  (forall k, In k (JSMap.keys (times s)) -> contains ":" k = true) ->
  snd (scheduleEditor.updateScheduleList s) = None.
Proof.
  intro H. unfold scheduleEditor.updateScheduleList.
  destruct (scheduleList (page s)), (timesTextarea (page s));
    try reflexivity.
  destruct (scheduleEditor.timeEntries (times s)) as [| e0 es] eqn:E;
    [reflexivity |].
  destruct (renderEntries_completes (e0 :: es) "") as [h Eh].
  - intros e I. apply H. apply timeEntries_keys. exists e.
    split; [now rewrite E | reflexivity].
  - now rewrite Eh.
Qed.

Lemma updateScheduleList_throws (s : State) (sl ta k : string) :
  scheduleList (page s) = Some sl -> timesTextarea (page s) = Some ta ->
  In k (JSMap.keys (times s)) -> contains ":" k = false ->
  scheduleEditor.updateScheduleList s
  = (s, Some (TypeError_undefined "toString")).
Proof.
  intros Hsl Hta I H. unfold scheduleEditor.updateScheduleList.
  rewrite Hsl, Hta. apply timeEntries_keys in I as (e & I & <-).
  destruct (scheduleEditor.timeEntries (times s)) as [| e0 es] eqn:E;
    [contradiction |].
  rewrite (renderEntries_throws (e0 :: es) ""); [reflexivity | eauto].
Qed.

End Mirror.

(** X4. A successful [refreshState] replaces the schedule cache wholesale:
    whatever the cache held, it now holds the snapshot's entries, a key
    written twice keeping its last type, and entries with distinct keys in
    the order of the snapshot.  The custom types are replaced the same way
    when every time key has a colon.  With a key without a colon the
    schedule list throws, so the custom types, and the whole page, stay as
    they were. *)
Theorem X4_refreshState_mirrors_snapshot :
  forall (tza now : Z) (tms cts : list (string * string)) (s : State),
    let s' := fst (refreshState tza now (snapshotOf tms cts) s) in
    times s' = JSMap.setAll tms []
    /\ (forall k, JSMap.get k (times s') = lastBinding k tms)
    /\ (NoDup (map fst tms) -> times s' = tms)
    /\ ((forall k, In k (map fst tms) -> contains ":" k = true) ->
        types s' = JSMap.setAll cts []
        /\ (forall k, JSMap.get k (types s') = lastBinding k cts)
        /\ (NoDup (map fst cts) -> types s' = cts))
    /\ (forall sl ta k,
           scheduleList (page s) = Some sl ->
           timesTextarea (page s) = Some ta ->
           In k (map fst tms) -> contains ":" k = false ->
           s' = withTimes (JSMap.setAll tms []) s).
Proof.
  intros tza now tms cts s s'.
  set (s1 := withTimes (JSMap.setAll tms []) s).
  set (tail := customTypes.updateTypesList ;;
               customTypes.updateTypeDropdown ;;
               updateUpcomingAnnouncements None tza now).
  assert (E : s' = fst ((scheduleEditor.updateScheduleList ;;
                         replaceTypes (Some cts) ;; tail) s1)).
  { unfold s', snapshotOf, refreshState. cbn [b_status b_times String.eqb
      Ascii.eqb Bool.eqb b_custom_types].
    rewrite tryCatch_skip_fst. now rewrite seq_completes by reflexivity. }
  assert (T : times s' = JSMap.setAll tms []).
  { rewrite E.
    rewrite (keeps_seq times); [reflexivity | |].
    - apply keeps_times_of_caches, updateScheduleList_keeps_caches.
    - apply keeps_seq; [apply replaceTypes_keeps_times |].
      apply typesTail_keeps_times. }
  split; [exact T | split; [| split; [| split]]].
  - intro k. rewrite T, get_setAll. now destruct (lastBinding k tms).
  - intro N. rewrite T. now apply (setAll_fresh tms []).
  - intro H.
    assert (C : snd (scheduleEditor.updateScheduleList s1) = None).
    { apply updateScheduleList_completes. intros k I.
      apply setAll_keys in I as [I | []]. now apply H. }
    assert (Y : types s' = JSMap.setAll cts []).
    { rewrite E, seq_completes by exact C.
      rewrite seq_completes by reflexivity.
      unfold tail. now rewrite typesTail_keeps_types. }
    split; [exact Y | split].
    + intro k. rewrite Y, get_setAll. now destruct (lastBinding k cts).
    + intro N. rewrite Y. now apply (setAll_fresh cts []).
  - intros sl ta k Hsl Hta I H.
    assert (X : scheduleEditor.updateScheduleList s1
                = (s1, Some (TypeError_undefined "toString"))).
    { apply (updateScheduleList_throws s1 sl ta k); try assumption.
      apply setAll_has_keys. now left. }
    rewrite E, (seq_throws _ _ _ (TypeError_undefined "toString"));
      now rewrite X.
Qed.

Lemma X4_refreshState_mirrors_snapshot_witness :
  types (fst (refreshState 0 0
                (snapshotOf [("10:00", "hour")] [("vip", "Welcome")])
                (mkState [("09:00", "ad")] [("old", "Bye")] blankPage)))
  = [("vip", "Welcome")]
  /\ fst (refreshState 0 0
            (snapshotOf [("noon", "hour")] [("vip", "Welcome")])
            (mkState [("09:00", "ad")] [("old", "Bye")] blankPage))
     = mkState [("noon", "hour")] [("old", "Bye")] blankPage.
Proof.
  split.
  - apply (proj1 (proj2 (proj2 (proj2
             (X4_refreshState_mirrors_snapshot 0 0 [("10:00", "hour")]
                [("vip", "Welcome")]
                (mkState [("09:00", "ad")] [("old", "Bye")] blankPage)))))).
    + intros k [<- | []]. reflexivity.
    + repeat constructor. simpl. tauto.
  - apply (proj2 (proj2 (proj2 (proj2
             (X4_refreshState_mirrors_snapshot 0 0 [("noon", "hour")]
                [("vip", "Welcome")]
                (mkState [("09:00", "ad")] [("old", "Bye")] blankPage)))))
             "" "" "noon"); try reflexivity.
    simpl. auto.
Defined.

(** X5. [refreshState] is silent: it never throws, never adds an alert and
    never touches the loading overlay, whatever the server answers; and when
    the answer is unusable (no response, a status that is not [ok], an
    unreadable body or a [status] other than ["success"]) it leaves the whole
    state as it was. *)
Theorem X5_refreshState_silent :
  forall (tza now : Z) (r : fetched) (s : State),
    snd (refreshState tza now r s) = None
    /\ alertsOf (fst (refreshState tza now r s)) = alertsOf s
    /\ overlayOf (fst (refreshState tza now r s)) = overlayOf s
    /\ (unusable r -> fst (refreshState tza now r s) = s).
Proof.
  intros tza now r s.
  split; [apply refreshState_completes |].
  split; [apply refreshState_keeps_alerts |].
  split; [apply refreshState_keeps_overlay |].
  unfold unusable, refreshState.
  destruct r as [e | [|] [data | e]]; try reflexivity.
  destruct (b_status data) as [st |]; [| reflexivity].
  destruct (String.eqb_spec st "success") as [-> | N]; [| reflexivity].
  intro H. now contradiction H.
Qed.

Lemma X5_refreshState_silent_witness :
  fst (refreshState 0 0 (Responded false (Normal (mkBody (Some "busy") None
                                                    None None)))
         (mkState [("10:00", "hour")] [] blankPage))
  = mkState [("10:00", "hour")] [] blankPage.
Proof.
  apply (proj2 (proj2 (proj2 (X5_refreshState_silent 0 0 _ _)))).
  exact I.
Defined.

(** ** The overlay and the alerts of the guarded operations *)

Section Guarded.


Lemma showNotification_completes (msg type : string) (s : State) :
  snd (Utils.showNotification msg type s) = None.
Proof. reflexivity. Qed.








End Guarded.

Section RefreshScheduleFacts.







End RefreshScheduleFacts.







(** ** The type drop-down *)

Section Dropdown.

Lemma keepLastSelected_labels (os : list selectOption) :
  map optionLabel (customTypes.keepLastSelected os) = map optionLabel os.
Proof.
  induction os as [| o rest IH]; [reflexivity |].
  cbn [customTypes.keepLastSelected].
  destruct (existsb optSelected rest); [| reflexivity].
  cbn [map]. now rewrite IH.
Qed.

Lemma settle_labels (os : list selectOption) :
  map optionLabel (customTypes.settle os) = map optionLabel os.
Proof.
  unfold customTypes.settle.
  destruct (existsb optSelected os); [apply keepLastSelected_labels |].
  now destruct os.
Qed.

(** Adding options one after the other appends their labels. *)
Lemma addAll_labels {A : Type} (f : A -> selectOption) (l : list A)
  (acc : list selectOption) :
  map optionLabel (fold_left (fun acc x => customTypes.add (f x) acc) l acc)
  = (map optionLabel acc ++ map (fun x => optionLabel (f x)) l)%list.
Proof.
  revert acc. induction l as [| x l IH]; intro acc; cbn [fold_left map].
  - now rewrite app_nil_r.
  - rewrite IH. unfold customTypes.add.
    rewrite settle_labels, map_app, <- app_assoc. reflexivity.
Qed.

Lemma builtIn_labels (os : list selectOption) :
  map optionLabel (filter isBuiltIn os)
  = filter (fun l => negb (startsWith (snd l) "custom:"))
      (map optionLabel os).
Proof.
  induction os as [| o os IH]; [reflexivity |].
  cbn [filter map optionLabel snd].
  change (negb (startsWith (optValue o) "custom:")) with (isBuiltIn o).
  destruct (isBuiltIn o); cbn [map]; now rewrite IH.
Qed.

Lemma custom_not_builtIn (es : list (string * string)) :
  filter (fun l => negb (startsWith (snd l) "custom:")) (map customOption es)
  = [].
Proof.
  induction es as [| [k v] es IH]; [reflexivity |].
  cbn [map filter customOption snd fst].
  replace (startsWith ("custom:" ++ k) "custom:") with true
    by (destruct k; reflexivity).
  exact IH.
Qed.

Lemma filter_filter {A : Type} (f : A -> bool) (l : list A) :
  filter f (filter f l) = filter f l.
Proof.
  apply filter_all, Forall_forall. intros x I.
  now apply filter_In in I.
Qed.

(** The labels of the options after [updateTypeDropdown]. *)
Lemma updateTypeDropdown_labels (s : State) (options : list selectOption) :
  newType (page s) = Some options ->
  exists options1,
    customTypes.updateTypeDropdown s
    = (withPage (setNewType options1 (page s)) s, None)
    /\ map optionLabel options1
       = (map optionLabel (filter isBuiltIn options)
          ++ map customOption (JSMap.entries (types s)))%list.
Proof.
  intro H. unfold customTypes.updateTypeDropdown, modify. rewrite H.
  eexists. split; [reflexivity |].
  rewrite (addAll_labels
             (fun e => mkOption ("Custom: " ++ fst e) ("custom:" ++ fst e)
                         false)).
  rewrite (addAll_labels (fun o => o)).
  reflexivity.
Qed.

End Dropdown.

(** X9. [customTypes.updateTypeDropdown] rebuilds the options of the type
    select from the options that are not custom, in their order, followed by
    one option [Custom: name] with value [custom:name] per cached custom
    type, in the order of the cache.  So every custom option it leaves
    belongs to a cached type, a second run changes no text and no value, and
    the caches are untouched.  Without the select it does nothing. *)
Theorem X9_updateTypeDropdown_options :
  forall (s : State),
    (newType (page s) = None -> customTypes.updateTypeDropdown s = (s, None))
    /\ (forall options,
           newType (page s) = Some options ->
           let s1 := fst (customTypes.updateTypeDropdown s) in
           exists options1,
             newType (page s1) = Some options1
             /\ map optionLabel options1
                = (map optionLabel (filter isBuiltIn options)
                   ++ map customOption (JSMap.entries (types s)))%list
             /\ (forall o,
                    In o options1 -> isBuiltIn o = false ->
                    exists e, In e (JSMap.entries (types s))
                              /\ optionLabel o = customOption e)
             /\ (exists options2,
                    newType (page (fst (customTypes.updateTypeDropdown s1)))
                    = Some options2
                    /\ map optionLabel options2 = map optionLabel options1)
             /\ cachesOf s1 = cachesOf s).
Proof.
  intro s. split.
  - intro H. unfold customTypes.updateTypeDropdown, modify. now rewrite H.
  - intros options H s1.
    destruct (updateTypeDropdown_labels s options H) as (options1 & E & L).
    assert (E1 : s1 = withPage (setNewType options1 (page s)) s)
      by (unfold s1; now rewrite E).
    assert (N1 : newType (page s1) = Some options1) by now rewrite E1.
    exists options1. split; [exact N1 | split; [exact L | split; [| split]]].
    + intros o I B.
      assert (I' : In (optionLabel o) (map optionLabel options1))
        by now apply in_map.
      rewrite L in I'. apply in_app_or in I' as [I' | I'].
      * apply in_map_iff in I' as (o' & Eo & Io).
        apply filter_In in Io as [_ Bo]. unfold isBuiltIn in *.
        assert (V : optValue o' = optValue o)
          by (change (snd (optionLabel o') = snd (optionLabel o));
              now rewrite Eo).
        rewrite V in Bo. congruence.
      * apply in_map_iff in I' as (e & Ee & Ie). eauto.
    + destruct (updateTypeDropdown_labels s1 options1 N1)
        as (options2 & E2 & L2).
      exists options2. split; [now rewrite E2 |].
      rewrite L2, builtIn_labels, L, filter_app, <- builtIn_labels.
      rewrite filter_filter, custom_not_builtIn, app_nil_r.
      now rewrite E1.
    + now rewrite E1.
Qed.

Lemma X9_updateTypeDropdown_options_witness :
  exists options1,
    newType
      (page (fst (customTypes.updateTypeDropdown
                    (mkState [] [("vip", "Welcome")]
                       (setNewType
                          [mkOption "Hour Change" "hour" true;
                           mkOption "Custom: old" "custom:old" false]
                          blankPage)))))
    = Some options1
    /\ map optionLabel options1
       = [("Hour Change", "hour"); ("Custom: vip", "custom:vip")].
Proof.
  destruct (proj2 (X9_updateTypeDropdown_options
                     (mkState [] [("vip", "Welcome")]
                        (setNewType
                           [mkOption "Hour Change" "hour" true;
                            mkOption "Custom: old" "custom:old" false]
                           blankPage)))
              [mkOption "Hour Change" "hour" true;
               mkOption "Custom: old" "custom:old" false] eq_refl)
    as (options1 & E & L & _).
  exists options1. split; [exact E | exact L].
Defined.

(** ** The order of the upcoming announcements *)

Section SortOn.
Context {A : Type}.
Variable le : A -> A -> bool.
Variable P : A -> Prop.

(** It is enough that [le] is total and transitive on the elements at
    hand. *)
Hypothesis le_total_on :
  forall a b, P a -> P b -> le a b = true \/ le b a = true.
Hypothesis le_trans_on :
  forall a b c, P a -> P b -> P c ->
                le a b = true -> le b c = true -> le a c = true.

Lemma insert_sorted_on (x : A) (l : list A) :
  P x -> Forall P l ->
  StronglySorted (fun a b => le a b = true) l ->
  StronglySorted (fun a b => le a b = true) (JSArray.insert le x l).
Proof.
  intro Px. induction l as [| y ys IH]; intros Pl S; simpl.
  - constructor; constructor.
  - inversion S as [| ? ? Sys Fy]; subst.
    inversion Pl as [| ? ? Py Pys]; subst.
    destruct (le x y) eqn:E.
    + constructor; [exact S |].
      constructor; [exact E |].
      rewrite Forall_forall in *. intros a Ia.
      apply (le_trans_on x y a); auto.
    + constructor; [now apply IH |].
      destruct (le_total_on x y Px Py) as [C | C]; [congruence |].
      eapply Permutation_Forall;
        [apply Permutation_sym, insert_perm |].
      constructor; assumption.
Qed.

Lemma sort_sorted_on (l : list A) :
  Forall P l ->
  StronglySorted (fun a b => le a b = true) (JSArray.sort le l).
Proof.
  induction l as [| x xs IH]; intro Pl; simpl; [constructor |].
  inversion Pl as [| ? ? Px Pxs]; subst.
  apply insert_sorted_on; [exact Px | | now apply IH].
  eapply Permutation_Forall; [apply Permutation_sym, sort_perm | exact Pxs].
Qed.

End SortOn.

Section UpcomingOrder.

(** An item the callback returns has a valid date, and its minutes are the
    rounded distance to it, at most sixty. *)
Lemma projectLine_valid (tza now : Z) (line : string) (it : item) :
  projectLine tza now line = Some it ->
  exists t,
    scheduleTime it = TV t
    /\ minutesUntil it = ofZ (roundedMinutes (t - now))
    /\ roundedMinutes (t - now) <= 60.
Proof.
  unfold projectLine. destruct (parseLine line) as [timeStr ty]. cbv zeta.
  destruct (occurrence tza now _ _) as [| t].
  - cbn. discriminate.
  - cbn [minus]. rewrite roundQuotient_ms, leZ_integer.
    destruct (Z.leb_spec (roundedMinutes (t - now)) 60) as [L | L];
      [| discriminate].
    intros [= <-]. exists t. now repeat split.
Qed.

Lemma retained_length (l : list (option item)) :
  (List.length (retained l) <= List.length l)%nat.
Proof.
  induction l as [| [x |] l IH]; simpl; lia.
Qed.

Lemma byScheduleTime_valid (a b : item) (x y : Z) :
  scheduleTime a = TV x -> scheduleTime b = TV y ->
  byScheduleTime a b = (x <=? y).
Proof.
  intros Ha Hb. unfold byScheduleTime. rewrite Ha, Hb. cbn.
  destruct (Z.leb_spec (x - y) 0), (Z.leb_spec x y); reflexivity || lia.
Qed.

End UpcomingOrder.

(** X10. The array [upcoming] is in order of occurrence: every item carries
    a valid date, none occurs later than the items after it, the minutes of
    an item are the rounded distance from [now] to its date and are at most
    sixty, and there are no more items than lines that are not blank. *)
Theorem X10_upcoming_in_order :
  forall (tza now : Z) (value : string),
    let items := upcomingOf tza now value in
    StronglySorted occursNoLater items
    /\ Forall (fun it =>
                 exists t,
                   scheduleTime it = TV t
                   /\ minutesUntil it = ofZ (roundedMinutes (t - now))
                   /\ roundedMinutes (t - now) <= 60) items
    /\ (List.length items <= List.length (nonBlankLines value))%nat.
Proof.
  intros tza now value items.
  set (valid := fun it : item => exists t, scheduleTime it = TV t).
  assert (F : Forall (fun it =>
                 exists t,
                   scheduleTime it = TV t
                   /\ minutesUntil it = ofZ (roundedMinutes (t - now))
                   /\ roundedMinutes (t - now) <= 60) items).
  { apply Forall_forall. intros it I.
    apply In_upcomingOf in I as (line & _ & E).
    exact (projectLine_valid tza now line it E). }
  assert (V : Forall valid
                (retained (map (projectLine tza now) (nonBlankLines value)))).
  { apply Forall_forall. intros it I.
    apply In_retained, in_map_iff in I as (line & E & _).
    destruct (projectLine_valid tza now line it E) as (t & T & _).
    now exists t. }
  split; [| split; [exact F |]].
  - assert (S : StronglySorted (fun a b => byScheduleTime a b = true) items).
    { apply (sort_sorted_on byScheduleTime valid); [| | exact V].
      - intros a b [x Hx] [y Hy].
        rewrite (byScheduleTime_valid a b x y Hx Hy),
          (byScheduleTime_valid b a y x Hy Hx). lia.
      - intros a b c [x Hx] [y Hy] [z Hz].
        rewrite (byScheduleTime_valid a b x y Hx Hy),
          (byScheduleTime_valid b c y z Hy Hz),
          (byScheduleTime_valid a c x z Hx Hz). lia. }
    clear V. induction S as [| a l S IH Fa]; [constructor |].
    inversion F as [| ? ? (x & Hx & _) Fl]; subst.
    constructor; [now apply IH |].
    rewrite Forall_forall in *. intros b Ib.
    destruct (Fl b Ib) as (y & Hy & _).
    specialize (Fa b Ib). rewrite (byScheduleTime_valid a b x y Hx Hy) in Fa.
    unfold occursNoLater. rewrite Hx, Hy. lia.
  - unfold items, upcomingOf.
    rewrite (Permutation_length (sort_perm byScheduleTime _)).
    eapply Nat.le_trans; [apply retained_length |].
    now rewrite length_map.
Qed.

(** ** From the cache to the upcoming announcements *)

Section Chain.

Lemma projectLine_parse (tza now : Z) (l1 l2 : string) :
  parseLine l1 = parseLine l2 ->
  projectLine tza now l1 = projectLine tza now l2.
Proof. intro H. unfold projectLine. now rewrite H. Qed.

Lemma isTimeKey_colon (k : string) :
  isTimeKey k = true -> contains ":" k = true.
Proof.
  intro H.
  destruct (isTimeKey_inv k H) as (h1 & h2 & m1 & m2 & -> & _).
  rewrite !contains_cons, Ascii.eqb_refl.
  now rewrite !orb_true_r.
Qed.

(** The lines the projector reads from the serialization of well-formed
    entries. *)
Lemma nonBlankLines_serialize (es : list (string * string)) :
  (forall e, In e es ->
             isTimeKey (fst e) = true /\ plainToken (snd e) = true) ->
  nonBlankLines (normalizeNewlines (scheduleEditor.serialize es))
  = trimLast (map scheduleEditor.entryLine es).
Proof.
  intro H. destruct es as [| e0 es0] eqn:Ees; [reflexivity |].
  rewrite <- Ees in *.
  assert (Ene : es <> []) by (rewrite Ees; discriminate). clear Ees e0 es0.
  set (L := map scheduleEditor.entryLine es).
  assert (Facts : forall x, In x L ->
            exists k t, x = scheduleEditor.entryLine (k, t)
                        /\ isTimeKey k = true /\ plainToken t = true).
  { intros x I. apply in_map_iff in I as ([k t] & <- & I).
    destruct (H _ I). eauto. }
  assert (Lne : L <> [])
    by (unfold L; destruct es; [contradiction | discriminate]).
  unfold scheduleEditor.serialize. fold L.
  rewrite normalizeNewlines_id.
  2:{ apply contains_join; [reflexivity |]. intros x I.
      destruct (Facts x I) as (k & t & -> & K & P).
      apply (entryLine_facts k t K P). }
  unfold nonBlankLines.
  assert (T : trim (join nl L) = join nl (trimLast L)).
  { unfold trim.
    assert (S : trimStart (join nl L) = join nl L).
    { destruct L as [| x L']; [contradiction |].
      destruct (Facts x (or_introl eq_refl)) as (k & t & -> & K & P).
      destruct (entryLine_facts k t K P) as (_ & _ & (c & r & E & Hc) & _).
      rewrite E. destruct L'; simpl; now rewrite Hc. }
    rewrite S. apply trimEnd_join. intros x I.
    destruct (Facts x I) as (k & t & -> & K & P).
    apply (entryLine_facts k t K P). }
  rewrite T.
  rewrite (split_join LF).
  2:{ now apply trimLast_not_nil. }
  2:{ apply Forall_trimLast. intros x I.
      destruct (Facts x I) as (k & t & -> & K & P).
      split; apply (entryLine_facts k t K P). }
  apply filter_all.
  apply Forall_trimLast. intros x I.
  destruct (Facts x I) as (k & t & -> & K & P).
  destruct (entryLine_facts k t K P) as (_ & _ & _ & _ & _ & B1 & B2 & _).
  now rewrite B1, B2.
Qed.

(** The array [upcoming] for the serialization of well-formed entries. *)
Lemma upcomingOf_serialize (tza now : Z) (es : list (string * string)) :
  (forall e, In e es ->
             isTimeKey (fst e) = true /\ plainToken (snd e) = true) ->
  upcomingOf tza now (normalizeNewlines (scheduleEditor.serialize es))
  = JSArray.sort byScheduleTime
      (retained
         (map (fun e => projectLine tza now (scheduleEditor.entryLine e))
            es)).
Proof.
  intro H. unfold upcomingOf. rewrite (nonBlankLines_serialize es H).
  rewrite map_trimLast.
  - now rewrite map_map.
  - intros x I. apply in_map_iff in I as ([k t] & <- & I).
    destruct (H _ I) as [K P]. apply projectLine_parse.
    destruct (entryLine_facts k t K P)
      as (_ & _ & _ & _ & _ & _ & _ & P1 & P2).
    now rewrite P1, P2.
Qed.

(** The item of a well-formed entry shows the entry. *)
Lemma projectLine_shows_entry (tza now : Z) (k t : string) (it : item) :
  isTimeKey k = true -> plainToken t = true ->
  projectLine tza now (scheduleEditor.entryLine (k, t)) = Some it ->
  time it = k /\ type it = Some t.
Proof.
  intros K P E.
  destruct (projectLine_fields tza now _ it E) as (T1 & T2 & _).
  destruct (entryLine_facts k t K P)
    as (_ & _ & _ & _ & _ & _ & _ & P1 & _).
  rewrite P1 in T1, T2. now split.
Qed.

End Chain.

(** X11. The schedule list feeds the upcoming announcements.  On a page with
    the list, the text area and the upcoming panel, and a cache whose keys
    are canonical TimeKeys and whose type tokens are plain, running
    [updateScheduleList] and then [updateUpcomingAnnouncements] never
    throws and leaves the caches alone; the items [upcoming] is made of are
    the projections of the cache entries, taken in sorted order of the keys
    and then put in order of occurrence; each item shows the key and the
    type of a cache entry; and the panel holds the empty-state markup when
    there is no item and the rendering of the items otherwise. *)
Theorem X11_list_feeds_upcoming :
  forall (cd : option colors) (tza now : Z) (s : State) (sl ta up : string),
    scheduleList (page s) = Some sl ->
    timesTextarea (page s) = Some ta ->
    upcomingList (page s) = Some up ->
    (forall e, In e (JSMap.entries (times s)) ->
               isTimeKey (fst e) = true /\ plainToken (snd e) = true) ->
    let es := scheduleEditor.timeEntries (times s) in
    let out :=
      (scheduleEditor.updateScheduleList ;;
       updateUpcomingAnnouncements cd tza now) s in
    let items :=
      JSArray.sort byScheduleTime
        (retained
           (map (fun e => projectLine tza now (scheduleEditor.entryLine e))
              es)) in
    snd out = None
    /\ cachesOf (fst out) = cachesOf s
    /\ (exists value,
           timesTextarea (page (fst out)) = Some value
           /\ upcomingOf tza now value = items)
    /\ upcomingList (page (fst out))
       = Some (match items with
               | [] => upcoming.emptyHtml
               | _ :: _ => fst (upcoming.renderItems cd "" items)
               end)
    /\ (forall it,
           In it items ->
           exists k t,
             In (k, t) (JSMap.entries (times s))
             /\ time it = k /\ type it = Some t).
Proof.
  intros cd tza now s sl ta up Hsl Hta Hup H es out items.
  assert (P : Permutation es (JSMap.entries (times s))) by apply sort_perm.
  assert (Hes : forall e, In e es ->
              isTimeKey (fst e) = true /\ plainToken (snd e) = true)
    by (intros e I; apply H; now apply (Permutation_in _ P)).
  assert (Shown : forall it,
             In it items ->
             exists k t, In (k, t) es /\ isTimeKey k = true
                         /\ time it = k /\ type it = Some t).
  { intros it I. unfold items in I.
    apply (Permutation_in _ (sort_perm byScheduleTime _)) in I.
    apply In_retained, in_map_iff in I as ([k t] & E & I).
    destruct (Hes _ I) as [K T]. cbn [fst snd] in K, T.
    destruct (projectLine_shows_entry tza now k t it K T E) as [E1 E2].
    exists k, t. now repeat split. }
  assert (U : exists h,
             scheduleEditor.updateScheduleList s
             = (withPage (setTimesTextarea (scheduleEditor.serialize es)
                            (setScheduleList h (page s))) s, None)).
  { unfold scheduleEditor.updateScheduleList. rewrite Hsl, Hta. fold es.
    destruct es as [| e0 es0] eqn:Ees; [eexists; reflexivity |].
    rewrite renderEntries_ok by (intros e I; now apply Hes).
    eexists; reflexivity. }
  destruct U as [h U].
  assert (O : out
              = updateUpcomingAnnouncements cd tza now
                  (withPage (setTimesTextarea (scheduleEditor.serialize es)
                               (setScheduleList h (page s))) s)).
  { unfold out, seq. now rewrite U. }
  unfold updateUpcomingAnnouncements in O.
  cbn [page withPage setTimesTextarea setScheduleList upcomingList
       timesTextarea] in O.
  rewrite Hup in O. rewrite (upcomingOf_serialize tza now es Hes) in O.
  fold items in O.
  assert (R : items <> [] -> snd (upcoming.renderItems cd "" items) = None).
  { intros _. apply renderItems_completes, Forall_forall. intros it I.
    destruct (Shown it I) as (k & t & _ & K & E1 & E2). split.
    - rewrite E2. discriminate.
    - rewrite E1. exists (timeText k). now apply formatTime_timeKey. }
  assert (V : upcomingOf tza now
                (normalizeNewlines (scheduleEditor.serialize es)) = items)
    by apply (upcomingOf_serialize tza now es Hes).
  destruct items as [| it0 items0] eqn:Ei.
  - rewrite O. cbn. repeat split; eauto.
    intros it [].
  - specialize (R ltac:(discriminate)).
    destruct (upcoming.renderItems cd "" (it0 :: items0)) as [html r].
    cbn [snd fst] in *. subst r. rewrite O. cbn.
    repeat split; eauto.
    intros it I. destruct (Shown it I) as (k & t & I' & _ & E1 & E2).
    exists k, t. repeat split; try assumption.
    now apply (Permutation_in _ P).
Qed.

Lemma X11_list_feeds_upcoming_witness :
  snd ((scheduleEditor.updateScheduleList ;;
        updateUpcomingAnnouncements None 0 0)
         (mkState [("10:00", "hour")] [] blankPage)) = None.
Proof.
  apply (proj1 (X11_list_feeds_upcoming None 0 0
                  (mkState [("10:00", "hour")] [] blankPage) "" "" ""
                  eq_refl eq_refl eq_refl
                  ltac:(intros e [<- | []]; split; reflexivity))).
Defined.

(** ** The clock *)

Section ClockFacts.

Lemma clock_fields (tza day H M S ms : Z) :
  0 <= H <= 23 -> 0 <= M <= 59 -> 0 <= S <= 59 -> 0 <= ms <= 999 ->
  let now := localInstant tza day H M S ms in
  Clock.getHours tza now = ofZ H
  /\ Clock.getMinutes tza now = ofZ M
  /\ Clock.getSeconds tza now = ofZ S.
Proof.
  intros HH HM HS Hms now.
  unfold Clock.getHours, Clock.getMinutes, Clock.getSeconds, now,
    LocalTime, localInstant, msPerDay, msPerHour, msPerMinute, msPerSecond.
  repeat split; f_equal; Z.div_mod_to_equations; lia.
Qed.

End ClockFacts.

(** X12. [UI.updateClock]: when the local clock reads [H:M:S], the clock
    element shows the hour of the twelve-hour clock without a leading zero,
    minutes and seconds with two digits each, and AM before noon, PM from
    noon on.  Without the element nothing is written. *)
Theorem X12_updateClock_text :
  forall (tza day H M S ms : Z) (old : string),
    0 <= H <= 23 -> 0 <= M <= 59 -> 0 <= S <= 59 -> 0 <= ms <= 999 ->
    let now := localInstant tza day H M S ms in
    Clock.updateClock tza now (Some old)
    = Some (digitsOf (hour12 H) ++ ":" ++ twoDigits M ++ ":" ++ twoDigits S
            ++ " " ++ period H)
    /\ Clock.updateClock tza now None = None.
Proof.
  intros tza day H M S ms old HH HM HS Hms now.
  destruct (clock_fields tza day H M S ms HH HM HS Hms) as (EH & EM & ES).
  fold now in EH, EM, ES.
  split; [| reflexivity].
  unfold Clock.updateClock. cbv zeta. rewrite EH, EM, ES.
  destruct (hours_displayed H HH) as [D Pd]. rewrite D, Pd.
  now rewrite (minutes_padded M HM), (minutes_padded S HS).
Qed.

Lemma X12_updateClock_text_witness :
  Clock.updateClock (-18000000) (localInstant (-18000000) 20000 0 5 9 250)
    (Some "")
  = Some "12:05:09 AM"
  /\ Clock.updateClock 3600000 (localInstant 3600000 20000 13 0 0 0)
       (Some "")
     = Some "1:00:00 PM".
Proof.
  split.
  - apply (proj1 (X12_updateClock_text (-18000000) 20000 0 5 9 250 ""
                    ltac:(lia) ltac:(lia) ltac:(lia) ltac:(lia))).
  - apply (proj1 (X12_updateClock_text 3600000 20000 13 0 0 0 ""
                    ltac:(lia) ltac:(lia) ltac:(lia) ltac:(lia))).
Defined.

(** ** What a successful mutation leaves in the caches *)

Section Adoption.





End Adoption.


